(** * Tool Gateway: the two MCP HTTP servers

    A shallow embedding of [src/servers/simple_mcp_server.js] and
    [src/servers/playwright_mcp_server.js].  Each server is an event-driven
    Node.js program: the runtime delivers events (an incoming HTTP request, a
    body chunk, a timer firing, a settled promise, a closed socket) and the
    handlers of the source run to their next suspension point.  The servers
    are embedded as step functions on an explicit state; everything the
    runtime decides (identifiers, clock readings, promise outcomes) enters
    through the event. *)

From stdpp Require Import base option list strings pretty gmap.
From Stdlib Require Import Ascii String.

Local Open Scope string_scope.
Set Warnings "-register-all".

(** ** JavaScript values, exceptions and the response object *)

Module Js.

(** Plain data as the handlers build and receive it.  The servers never
    compute with numbers, they only print and test them.  A finite number is
    identified by the decimal text [Number::toString] gives it, which is
    also what [JSON.stringify] prints for it (both zeros print as [0]).  The
    numbers that are not finite are values of their own: a template literal
    prints them by name and [JSON.stringify] prints them as [null]
    ([JSON.parse] gives an infinity for a literal beyond the range of a
    double, such as [1e999]).  An object lists its own properties in
    enumeration order. *)
Inductive value : Type :=
| VUndefined
| VNull
| VBool (b : bool)
| VNum (repr : string)
| VNaN
| VInfinity (negative : bool)
| VStr (s : string)
| VArr (items : list value)
| VObj (fields : list (string * value)).

(** An [Error] object, as far as the handlers read it. *)
Record exn : Type := Exn { message : string; stack : string }.

(** A computation that may throw. *)
Inductive result (A : Type) : Type :=
| Ok (a : A)
| Throw (e : exn).
Arguments Ok {A} a.
Arguments Throw {A} e.

#[global] Instance result_ret : MRet result := fun A a => Ok a.
#[global] Instance result_bind : MBind result := fun A B f m =>
  match m with
  | Ok a => f a
  | Throw e => Throw e
  end.

(** Handler code: it mutates the objects its closure reaches (state [S]) and
    may throw; what it changed before throwing stays changed. *)
Definition io (S A : Type) : Type := S -> S * result A.

#[global] Instance io_ret {S : Type} : MRet (io S) := fun A a s => (s, Ok a).
#[global] Instance io_bind {S : Type} : MBind (io S) := fun A B f m s =>
  match m s with
  | (s', Ok a) => f a s'
  | (s', Throw e) => (s', Throw e)
  end.

Definition throw {S A : Type} (e : exn) : io S A := fun s => (s, Throw e).
Definition gets {S A : Type} (f : S -> A) : io S A := fun s => (s, Ok (f s)).
Definition modify {S : Type} (f : S -> S) : io S unit := fun s => (f s, Ok tt).
Definition lift {S A : Type} (r : result A) : io S A := fun s => (s, r).

(** [try { body } catch (error) { handler(error) }] *)
Definition try_catch {S A : Type} (body : io S A) (handler : exn -> io S A)
  : io S A := fun s =>
  match body s with
  | (s', Ok a) => (s', Ok a)
  | (s', Throw e) => handler e s'
  end.

(** [ToBoolean], as [x || y] applies it: [undefined], [null], [false], the
    zeros, [NaN] and the empty string are falsy, everything else is
    truthy. *)
Definition truthy (v : value) : bool :=
  match v with
  | VUndefined | VNull => false
  | VBool b => b
  | VNum r => negb (String.eqb r "0")
  | VNaN => false
  | VInfinity _ => true
  | VStr s => negb (String.eqb s EmptyString)
  | VArr _ | VObj _ => true
  end.

Definition js_or (x y : value) : value := if truthy x then x else y.

Fixpoint assoc (k : string) (fields : list (string * value)) : option value :=
  match fields with
  | [] => None
  | (k', v) :: rest => if String.eqb k k' then Some v else assoc k rest
  end.

(** [v.k] for a value that is neither [null] nor [undefined]: an own
    property of an object, [undefined] otherwise. *)
Definition get (k : string) (v : value) : value :=
  match v with
  | VObj fields => default VUndefined (assoc k fields)
  | _ => VUndefined
  end.

(** [v.k]; reading a property of [null] or [undefined] is a [TypeError]
    (the message is V8's). *)
Definition prop (k : string) (v : value) : result value :=
  match v with
  | VNull =>
      Throw (Exn ("Cannot read properties of null (reading '" ++ k ++ "')")
                 EmptyString)
  | VUndefined =>
      Throw (Exn ("Cannot read properties of undefined (reading '" ++ k ++ "')")
                 EmptyString)
  | _ => Ok (get k v)
  end.

Definition dquote : ascii := "034"%char.
Definition backslash : ascii := "092"%char.

Definition hex_digit (n : nat) : ascii :=
  ascii_of_nat (if n <? 10 then 48 + n else 87 + n)%nat.

(** One code unit of [QuoteJSONString]. *)
Definition escape_char (c : ascii) : string :=
  let n := nat_of_ascii c in
  if (n =? 8)%nat then String backslash "b"
  else if (n =? 9)%nat then String backslash "t"
  else if (n =? 10)%nat then String backslash "n"
  else if (n =? 12)%nat then String backslash "f"
  else if (n =? 13)%nat then String backslash "r"
  else if (n =? 34)%nat then String backslash (String dquote EmptyString)
  else if (n =? 92)%nat then String backslash (String backslash EmptyString)
  else if (n <? 32)%nat then
    String backslash
      ("u00" ++ String (hex_digit (n / 16)) (String (hex_digit (n mod 16)) EmptyString))
  else String c EmptyString.

Fixpoint escape (s : string) : string :=
  match s with
  | EmptyString => EmptyString
  | String c rest => escape_char c ++ escape rest
  end.

Definition quote (s : string) : string :=
  String dquote (escape s ++ String dquote EmptyString).

Fixpoint join (sep : string) (parts : list string) : string :=
  match parts with
  | [] => EmptyString
  | [p] => p
  | p :: rest => p ++ sep ++ join sep rest
  end.

(** [JSON.stringify(v)]: [None] is the result [undefined].  A property whose
    value is [undefined] is left out of an object; an [undefined] array item
    prints as [null]. *)
Fixpoint JSON_stringify (v : value) : option string :=
  match v with
  | VUndefined => None
  | VNull => Some "null"
  | VBool b => Some (if b then "true" else "false")
  | VNum r => Some r
  | VNaN | VInfinity _ => Some "null"
  | VStr s => Some (quote s)
  | VArr items =>
      Some ("[" ++ join "," (List.map (fun x => default "null" (JSON_stringify x)) items) ++ "]")
  | VObj fields =>
      let members :=
        (fix go (fs : list (string * value)) : list string :=
           match fs with
           | [] => []
           | (k, x) :: rest =>
               match JSON_stringify x with
               | Some s => (quote k ++ ":" ++ s) :: go rest
               | None => go rest
               end
           end) fields in
      Some ("{" ++ join "," members ++ "}")
  end.

(** [`${o}`] where [o] is the result of [JSON.stringify]. *)
Definition shown (o : option string) : string := default "undefined" o.

(** [`${v}`]: the [ToString] conversion of a template literal.  Data has no
    callable property, so an object with an own [toString] property cannot be
    converted ([OrdinaryToPrimitive] finds no usable method) and the
    conversion throws; any other object prints through
    [Object.prototype.toString], an array through [join]. *)
Fixpoint to_string (v : value) : result string :=
  match v with
  | VUndefined => Ok "undefined"
  | VNull => Ok "null"
  | VBool b => Ok (if b then "true" else "false")
  | VNum r => Ok r
  | VNaN => Ok "NaN"
  | VInfinity negative => Ok (if negative then "-Infinity" else "Infinity")
  | VStr s => Ok s
  | VArr items =>
      let parts :=
        (fix go (xs : list value) : result (list string) :=
           match xs with
           | [] => Ok []
           | x :: rest =>
               match
                 match x with
                 | VUndefined | VNull => Ok EmptyString
                 | _ => to_string x
                 end
               with
               | Ok s =>
                   match go rest with
                   | Ok ss => Ok (s :: ss)
                   | Throw e => Throw e
                   end
               | Throw e => Throw e
               end
           end) items in
      match parts with
      | Ok ss => Ok (join "," ss)
      | Throw e => Throw e
      end
  | VObj fields =>
      match assoc "toString" fields with
      | Some _ => Throw (Exn "Cannot convert object to primitive value" EmptyString)
      | None => Ok "[object Object]"
      end
  end.

(** The wire shape of a message object: the properties [JSON.stringify]
    prints. *)
Definition on_wire (k : string) (msg : value) : bool :=
  match get k msg with
  | VUndefined => false
  | _ => true
  end.

(** *** [http.ServerResponse] *)

Record Res : Type := mkRes {
  headersSent : bool;
  statusCode : option nat;
  headers : list (string * string);
  chunks : list string;          (* what has been written, in write order *)
  ended : bool;
  broken : option exn            (* a transport on which [write] throws *)
}.

Definition fresh_res : Res := mkRes false None [] [] false None.

(** Setting a header replaces the value it had. *)
Fixpoint put_header (name val : string) (hs : list (string * string))
  : list (string * string) :=
  match hs with
  | [] => [(name, val)]
  | (n, v) :: rest =>
      if String.eqb n name then (n, val) :: rest else (n, v) :: put_header name val rest
  end.

Definition with_headers (more hs : list (string * string)) : list (string * string) :=
  foldl (fun acc h => put_header h.1 h.2 acc) hs more.

Definition setHeader (name val : string) (r : Res) : Res :=
  mkRes (headersSent r) (statusCode r) (put_header name val (headers r))
        (chunks r) (ended r) (broken r).

(** [res.writeHead(status, headers)] merges [headers] into those already set;
    it throws once the headers are sent. *)
Definition writeHead (status : nat) (hs : list (string * string)) (r : Res)
  : result Res :=
  if headersSent r
  then Throw (Exn "Cannot write headers after they are sent to the client" EmptyString)
  else Ok (mkRes true (Some status) (with_headers hs (headers r))
                 (chunks r) (ended r) (broken r)).

(** [res.write(chunk)] appends to the stream; on a broken transport it
    throws. *)
Definition write (chunk : string) (r : Res) : result Res :=
  match broken r with
  | Some e => Throw e
  | None =>
      Ok (mkRes (headersSent r) (statusCode r) (headers r)
                (chunks r ++ [chunk]) (ended r) (broken r))
  end.

(** [res.end(data)] *)
Definition end_ (data : option string) (r : Res) : Res :=
  mkRes true (statusCode r) (headers r)
        (chunks r ++ match data with Some d => [d] | None => [] end)
        true (broken r).

Definition break (e : exn) (r : Res) : Res :=
  mkRes (headersSent r) (statusCode r) (headers r) (chunks r) (ended r) (Some e).

Definition json_headers : list (string * string) :=
  [("Content-Type", "application/json")].

Definition sse_headers : list (string * string) :=
  [("Content-Type", "text/event-stream");
   ("Cache-Control", "no-cache");
   ("Connection", "keep-alive");
   ("Access-Control-Allow-Origin", "*");
   ("Access-Control-Allow-Headers", "Content-Type");
   ("X-Accel-Buffering", "no")].

(** The three [res.setHeader] calls that open both request handlers. *)
Definition cors (r : Res) : Res :=
  setHeader "Access-Control-Allow-Headers" "Content-Type"
    (setHeader "Access-Control-Allow-Methods" "GET, POST, OPTIONS"
       (setHeader "Access-Control-Allow-Origin" "*" r)).

Definition nl : string := String "010"%char EmptyString.

(** [`data: ${JSON.stringify(message)}\n\n`]: one server-sent event. *)
Definition sse_frame (msg : value) : string :=
  "data: " ++ shown (JSON_stringify msg) ++ nl ++ nl.

(** An incoming request: method and URL; the body arrives later in chunks. *)
Record Req : Type := mkReq { method : string; url : string }.

(** [r] after [l] more chunks were written to it. *)
Definition wrote (l : list string) (r : Res) : Res :=
  mkRes (headersSent r) (statusCode r) (headers r) (chunks r ++ l) (ended r) (broken r).

(** Handler code whose every run, thrown or not, relates the state it
    started in to the state it leaves. *)
Definition preserves {S A : Type} (R : relation S) (h : io S A) : Prop :=
  forall s, R s (h s).1.

(** The response stream only grows at its end. *)
Definition grows {S : Type} (the_res : S -> Res) : relation S :=
  fun s s' => exists more, chunks (the_res s') = (chunks (the_res s) ++ more)%list.

(** The value a response header has. *)
Fixpoint header (name : string) (hs : list (string * string)) : option string :=
  match hs with
  | [] => None
  | (n, v) :: rest => if String.eqb n name then Some v else header name rest
  end.

(** The three headers every handler starts by setting. *)
Definition cors_ok (r : Res) : Prop :=
  header "Access-Control-Allow-Origin" (headers r) = Some "*" /\
  header "Access-Control-Allow-Methods" (headers r) = Some "GET, POST, OPTIONS" /\
  header "Access-Control-Allow-Headers" (headers r) = Some "Content-Type".

(** Line feed and carriage return end a line of an event stream. *)
Definition line_break (c : ascii) : bool :=
  (nat_of_ascii c =? 10)%nat || (nat_of_ascii c =? 13)%nat.

Fixpoint one_line (s : string) : bool :=
  match s with
  | EmptyString => true
  | String c rest => negb (line_break c) && one_line rest
  end.

(** A value whose numbers are printed without a line break (as every number
    is). *)
Fixpoint printable (v : value) : bool :=
  match v with
  | VNum r => one_line r
  | VArr items => forallb printable items
  | VObj fields => forallb (fun kv => printable kv.2) fields
  | _ => true
  end.

End Js.

(** ** [simple_mcp_server.js] *)

Module Simple.
Import Js.

Definition str_prop (type description : string) : value :=
  VObj [("type", VStr type); ("description", VStr description)].

(** The static catalog, in declaration order. *)
Definition PLAYWRIGHT_TOOLS : list value :=
  [ VObj [("name", VStr "browser_navigate");
          ("description", VStr "Navigate to a URL in the browser");
          ("inputSchema",
           VObj [("type", VStr "object");
                 ("properties", VObj [("url", str_prop "string" "URL to navigate to")]);
                 ("required", VArr [VStr "url"])])];
    VObj [("name", VStr "page_screenshot");
          ("description", VStr "Take a screenshot of the current page");
          ("inputSchema",
           VObj [("type", VStr "object");
                 ("properties",
                  VObj [("fullPage", str_prop "boolean" "Take full page screenshot")])])];
    VObj [("name", VStr "element_click");
          ("description", VStr "Click on an element");
          ("inputSchema",
           VObj [("type", VStr "object");
                 ("properties",
                  VObj [("selector", str_prop "string" "CSS selector of element to click")]);
                 ("required", VArr [VStr "selector"])])];
    VObj [("name", VStr "page_content");
          ("description", VStr "Get the text content of the page");
          ("inputSchema",
           VObj [("type", VStr "object"); ("properties", VObj [])])] ].

(** The handle [setInterval] returns, with the time of its next firing. *)
Record Timer : Type := mkTimer { period : N; due : N; active : bool }.

(** What one invocation of the request handler owns: the response object and
    the handler's local variables ([body] exists once the [/execute] branch
    attached its [data] and [end] listeners, [heartbeatInterval] once the
    [/mcp] branch called [setInterval] and attached [close] and [error]). *)
Record Conn : Type := mkConn {
  res : Res;
  body : option string;
  heartbeatInterval : option Timer
}.

Definition new_conn : Conn := mkConn fresh_res None None.

Definition on_res (f : Res -> result Res) : io Conn unit := fun c =>
  match f (res c) with
  | Ok r => (mkConn r (body c) (heartbeatInterval c), Ok tt)
  | Throw e => (c, Throw e)
  end.

Definition res_writeHead (status : nat) (hs : list (string * string)) : io Conn unit :=
  on_res (writeHead status hs).
Definition res_write (chunk : string) : io Conn unit := on_res (write chunk).
Definition res_end (data : option string) : io Conn unit :=
  modify (fun c => mkConn (end_ data (res c)) (body c) (heartbeatInterval c)).
Definition res_cors : io Conn unit :=
  modify (fun c => mkConn (cors (res c)) (body c) (heartbeatInterval c)).

Definition setInterval (ms now : N) : io Conn unit :=
  modify (fun c => mkConn (res c) (body c) (Some (mkTimer ms (now + ms)%N true))).

Definition clearInterval : io Conn unit :=
  modify (fun c =>
    mkConn (res c) (body c)
      (match heartbeatInterval c with
       | Some t => Some (mkTimer (period t) (due t) false)
       | None => None
       end)).

Definition listen_body : io Conn unit :=
  modify (fun c => mkConn (res c) (Some EmptyString) (heartbeatInterval c)).

Definition length_of (l : list value) : value := VNum (pretty (List.length l)).

Definition health_body (tools : list value) (iso : string) : value :=
  VObj [("status", VStr "healthy");
        ("timestamp", VStr iso);
        ("service", VStr "simple-mcp-server");
        ("tools", length_of tools)].

Definition tools_body (tools : list value) : value :=
  VObj [("tools", VArr tools)].

Definition server_identity : value :=
  VObj [("name", VStr "simple-playwright-mcp"); ("version", VStr "1.0.0")].

Definition mcp_simple_body (tools : list value) : value :=
  VObj [("status", VStr "connected");
        ("protocol", VStr "mcp-simple");
        ("tools", VArr tools);
        ("capabilities", VArr [VStr "tools"]);
        ("server", server_identity)].

Definition connect_failed : string := "MCP 연결 실패".
Definition bad_request : string := "잘못된 요청".

Definition failure_body (error: exn) : value :=
  VObj [("error", VStr connect_failed); ("details", VStr (message error))].

Definition notification (meth : string) (params : value) : value :=
  VObj [("jsonrpc", VStr "2.0"); ("method", VStr meth); ("params", params)].

Definition initMessage : value := notification "notifications/initialized" (VObj []).

Definition serverInfo (tools : list value) : value :=
  notification "server/info"
    (VObj [("name", VStr "simple-playwright-mcp");
           ("version", VStr "1.0.0");
           ("capabilities", VArr [VStr "tools"]);
           ("tools", VArr tools)]).

Definition toolsList (tools : list value) : value :=
  notification "tools/list" (VObj [("tools", VArr tools)]).

Definition heartbeat (iso : string) : value :=
  notification "heartbeat" (VObj [("timestamp", VStr iso)]).

Definition info_body (tools : list value) : value :=
  VObj [("name", VStr "Simple MCP HTTP Server");
        ("version", VStr "1.0.0");
        ("description", VStr "Google ADK 호환 단순 MCP 서버");
        ("endpoints",
         VObj [("health", VStr "/health");
               ("tools", VStr "/tools");
               ("mcp", VStr "/mcp");
               ("mcp-simple", VStr "/mcp-simple");
               ("execute", VStr "/execute");
               ("info", VStr "/info")]);
        ("tools", length_of tools)].

Definition not_found_body : value := VObj [("error", VStr "Not found")].

Definition heartbeat_ms : N := 30000%N.

(** The [/mcp] branch. *)
Definition mcp (tools : list value) (now : N) : io Conn unit :=
  try_catch
    (res_writeHead 200 sse_headers ;;
     res_write (sse_frame initMessage) ;;
     res_write (sse_frame (serverInfo tools)) ;;
     res_write (sse_frame (toolsList tools)) ;;
     setInterval heartbeat_ms now)
    (fun error =>
       sent ← gets (fun c => headersSent (res c));
       if negb sent
       then res_writeHead 500 json_headers ;;
            res_end (JSON_stringify (failure_body error))
       else mret tt).

(** The [/mcp-simple] branch. *)
Definition mcp_simple (tools : list value) : io Conn unit :=
  try_catch
    (res_writeHead 200 json_headers ;;
     res_end (JSON_stringify (mcp_simple_body tools)))
    (fun error =>
       res_writeHead 500 json_headers ;;
       res_end (JSON_stringify (failure_body error))).

Definition reply (status : nat) (payload : value) : io Conn unit :=
  res_writeHead status json_headers ;; res_end (JSON_stringify payload).

(** The callback of [http.createServer], up to its [return]. *)
Definition on_request (tools : list value) (req : Req) (now : N) (iso : string)
  : io Conn unit :=
  res_cors ;;
  if String.eqb (method req) "OPTIONS" then
    res_writeHead 200 [] ;; res_end None
  else if String.eqb (url req) "/health" then reply 200 (health_body tools iso)
  else if String.eqb (url req) "/tools" then reply 200 (tools_body tools)
  else if String.eqb (url req) "/mcp-simple" then mcp_simple tools
  else if String.eqb (url req) "/mcp" then mcp tools now
  else if String.eqb (method req) "POST" && String.eqb (url req) "/execute" then
    listen_body
  else if String.eqb (url req) "/" || String.eqb (url req) "/info" then
    reply 200 (info_body tools)
  else reply 404 not_found_body.

(** The simulated execution result of [/execute]. *)
Definition execution (request : value) (iso : string) : result value :=
  tool ← prop "tool" request;
  tool_text ← to_string tool;
  params ← prop "params" request;
  mret (VObj [("tool", tool);
              ("status", VStr "success");
              ("result",
               VStr ("Executed " ++ tool_text ++ " with params: "
                       ++ shown (JSON_stringify params)));
              ("timestamp", VStr iso)]).

Definition rejection_body (error : exn) : value :=
  VObj [("error", VStr bad_request); ("details", VStr (message error))].

(** The [end] listener of [/execute]; [parsed] is what [JSON.parse(body)]
    gave. *)
Definition on_end (parsed : result value) (iso : string) : io Conn unit :=
  try_catch
    (request ← lift parsed;
     result ← lift (execution request iso);
     reply 200 result)
    (fun error => reply 400 (rejection_body error)).

(** The interval callback. *)
Definition on_tick (iso : string) : io Conn unit :=
  try_catch (res_write (sse_frame (heartbeat iso))) (fun error => clearInterval).

Record State : Type := mkState {
  tools : list value;              (* the module-level catalog array *)
  conns : gmap nat Conn;           (* every request seen so far *)
  next_id : nat
}.

Definition init : State := mkState PLAYWRIGHT_TOOLS ∅ 0.

(** What the runtime delivers to the server: a request (with the clock
    reading in milliseconds and as ISO text), a body chunk, the end of a body
    (with what [JSON.parse] makes of the accumulated body), a firing of a
    connection's interval timer, the [close] and [error] events of a request,
    and a transport failure after which [write] throws. *)
Inductive event : Type :=
| Request (req : Req) (now : N) (iso : string)
| Data (c : nat) (chunk : string)
| End (c : nat) (parsed : result value) (iso : string)
| Tick (c : nat) (iso : string)
| Close (c : nat)
| Error (c : nat) (e : exn)
| Break (c : nat) (e : exn).

Definition put (c : nat) (cn : Conn) (st : State) : State :=
  mkState (tools st) (<[c := cn]> (conns st)) (next_id st).

(** Run a piece of handler code on connection [c]; an exception that
    escapes it is not handled by the server. *)
Definition run (h : io Conn unit) (c : nat) (cn : Conn) (st : State) : State :=
  put c (h cn).1 st.

Definition reschedule (cn : Conn) : Conn :=
  mkConn (res cn) (body cn)
    (match heartbeatInterval cn with
     | Some t => Some (mkTimer (period t) (due t + period t)%N (active t))
     | None => None
     end).

Definition step (st : State) (ev : event) : State :=
  match ev with
  | Request req now iso =>
      mkState (tools st)
        (<[next_id st := (on_request (tools st) req now iso new_conn).1]> (conns st))
        (S (next_id st))
  | Data c chunk =>
      match conns st !! c with
      | Some cn =>
          match body cn with
          | Some b => put c (mkConn (res cn) (Some (b ++ chunk)) (heartbeatInterval cn)) st
          | None => st
          end
      | None => st
      end
  | End c parsed iso =>
      match conns st !! c with
      | Some cn =>
          match body cn with
          | Some _ => run (on_end parsed iso) c cn st
          | None => st
          end
      | None => st
      end
  | Tick c iso =>
      match conns st !! c with
      | Some cn =>
          match heartbeatInterval cn with
          | Some t =>
              if active t then run (on_tick iso) c (reschedule cn) st else st
          | None => st
          end
      | None => st
      end
  | Close c | Error c _ =>
      match conns st !! c with
      | Some cn =>
          match heartbeatInterval cn with
          | Some _ => run clearInterval c cn st
          | None => st
          end
      | None => st
      end
  | Break c e =>
      match conns st !! c with
      | Some cn => put c (mkConn (break e (res cn)) (body cn) (heartbeatInterval cn)) st
      | None => st
      end
  end.

Definition exec (st : State) (evs : list event) : State := foldl step st evs.

(** The response object of a request arriving in state [st]. *)
Definition answer (st : State) (req : Req) (now : N) (iso : string) : option Conn :=
  conns (step st (Request req now iso)) !! next_id st.

(** An [/execute] exchange on a fresh request: the request line, the body
    chunks, the end of the body. *)
Definition execute_exchange (st : State) (now : N) (iso0 : string)
    (pieces : list string) (parsed : result value) (iso : string) : list event :=
  Request (mkReq "POST" "/execute") now iso0
    :: (List.map (Data (next_id st)) pieces ++ [End (next_id st) parsed iso])%list.

Definition names (catalog : list value) : list value := List.map (get "name") catalog.

(** Connection identifiers are handed out in order. *)
Definition fresh (st : State) : Prop :=
  forall c cn, conns st !! c = Some cn -> c < next_id st.

(** Sample runs. *)
Definition noon : string := "2025-01-01T12:00:00.000Z".

Definition null_exchange : list event :=
  execute_exchange init 0 noon ["null"] (Ok VNull) noon.

Definition unknown_tool_call : value :=
  VObj [("tool", VStr "no_such_tool"); ("params", VObj [("depth", VNum "3")])].

Definition stream_opened : list event := [Request (mkReq "GET" "/mcp") 0 noon].

Definition heartbeat_fails : list event :=
  stream_opened ++ [Break 0 (Exn "write EPIPE" EmptyString); Tick 0 noon].

(** The frames that open a stream. *)
Definition opening (catalog : list value) : list string :=
  [sse_frame initMessage; sse_frame (serverInfo catalog); sse_frame (toolsList catalog)].

(** A connection is a stream (it has a timer and no body listener), an
    [/execute] exchange, or neither; a stream was answered 200, is not ended,
    and holds its opening frames followed by heartbeats. *)
Definition conn_ok (catalog : list value) (cn : Conn) : Prop :=
  match heartbeatInterval cn with
  | Some t =>
      body cn = None /\
      headersSent (res cn) = true /\ statusCode (res cn) = Some 200 /\
      ended (res cn) = false /\
      period t = heartbeat_ms /\
      exists isos,
        chunks (res cn)
        = (opening catalog ++ List.map (fun iso => sse_frame (heartbeat iso)) isos)%list
  | None => True
  end.

Definition invariant (st : State) : Prop :=
  forall c cn, conns st !! c = Some cn -> conn_ok (tools st) cn.

End Simple.

(** ** [playwright_mcp_server.js] *)

Module Full.
Import Js.

(** The environment variables read at start-up. *)
Record ProcessEnv : Type := mkProcessEnv {
  PLAYWRIGHT_HEADLESS : option string;
  PLAYWRIGHT_BROWSER : option string
}.

Definition env_var (o : option string) : value :=
  match o with
  | Some s => VStr s
  | None => VUndefined
  end.

Definition playwrightConfig (env : ProcessEnv) : value :=
  VObj [("browser",
         VObj [("launchOptions",
                VObj [("headless",
                       VBool (negb (bool_decide (PLAYWRIGHT_HEADLESS env = Some "false"))));
                      ("channel",
                       js_or (env_var (PLAYWRIGHT_BROWSER env)) (VStr "chrome"))])]);
        ("capabilities", VArr [VStr "tabs"; VStr "pdf"; VStr "vision"]);
        ("outputDir", VStr "./playwright-outputs")].

(** Which of the two dynamically imported bindings are set. *)
Record Modules : Type := mkModules {
  createConnection : bool;
  SSEServerTransport : bool
}.

(** [mcpServer.server._toolHandlers]: missing, a [Map] with these keys, or
    something on which [tools.keys()] throws. *)
Inductive toolHandlers : Type :=
| NoHandlers
| HandlerMap (names : list string)
| NotAMap (e : exn).

Record SdkServer : Type := mkSdkServer { _toolHandlers : toolHandlers }.

(** What [createConnection] resolves to. *)
Record McpServer : Type := mkMcpServer { server : option SdkServer }.

(** A value of the [connectedClients] map.  [entry_res] is the response
    object, named by the request it belongs to. *)
Record ClientEntry : Type := mkClientEntry {
  entry_res : nat;
  entry_mcpServer : McpServer;
  connected : bool;
  timestamp : string
}.

(** Where an invocation of the [/mcp] branch is suspended. *)
Inductive phase : Type :=
| Done
| AwaitCreate            (* at [await createMCPServer()] *)
| AwaitConnect.          (* at [await mcpServer.server.connect(transport)] *)

(** What one invocation of the request handler owns: the response object,
    its local constants [clientId] and [mcpServer], where it is suspended,
    and whether it has attached its [close] listener to the request. *)
Record Conn : Type := mkConn {
  res : Res;
  clientId : option string;
  mcpServer : option McpServer;
  pending : phase;
  closeListener : bool
}.

Definition new_conn : Conn := mkConn fresh_res None None Done false.

(** What handler code can reach: its own closure and the module-level map. *)
Record Ctx : Type := mkCtx {
  conn : Conn;
  connectedClients : gmap string ClientEntry
}.

Definition with_res (f : Res -> Res) (x : Ctx) : Ctx :=
  let c := conn x in
  mkCtx (mkConn (f (res c)) (clientId c) (mcpServer c) (pending c) (closeListener c))
        (connectedClients x).

Definition on_res (f : Res -> result Res) : io Ctx unit := fun x =>
  match f (res (conn x)) with
  | Ok r => (with_res (fun _ => r) x, Ok tt)
  | Throw e => (x, Throw e)
  end.

Definition res_writeHead (status : nat) (hs : list (string * string)) : io Ctx unit :=
  on_res (writeHead status hs).
Definition res_write (chunk : string) : io Ctx unit := on_res (write chunk).
Definition res_end (data : option string) : io Ctx unit := modify (with_res (end_ data)).
Definition res_cors : io Ctx unit := modify (with_res cors).

Definition reply (status : nat) (payload : value) : io Ctx unit :=
  res_writeHead status json_headers ;; res_end (JSON_stringify payload).

Definition assign_clientId (id : string) : io Ctx unit :=
  modify (fun x =>
    let c := conn x in
    mkCtx (mkConn (res c) (Some id) (mcpServer c) (pending c) (closeListener c))
          (connectedClients x)).

Definition assign_mcpServer (m : McpServer) : io Ctx unit :=
  modify (fun x =>
    let c := conn x in
    mkCtx (mkConn (res c) (clientId c) (Some m) (pending c) (closeListener c))
          (connectedClients x)).

(** Suspend at an [await]. *)
Definition suspend (p : phase) : io Ctx unit :=
  modify (fun x =>
    let c := conn x in
    mkCtx (mkConn (res c) (clientId c) (mcpServer c) p (closeListener c))
          (connectedClients x)).

(** [req.on('close', () => connectedClients.delete(clientId))] *)
Definition listen_close : io Ctx unit :=
  modify (fun x =>
    let c := conn x in
    mkCtx (mkConn (res c) (clientId c) (mcpServer c) (pending c) true)
          (connectedClients x)).

Definition clients_set (id : string) (e : ClientEntry) : io Ctx unit :=
  modify (fun x => mkCtx (conn x) (<[id := e]> (connectedClients x))).

Definition clients_delete (id : string) : io Ctx unit :=
  modify (fun x => mkCtx (conn x) (delete id (connectedClients x))).

Definition clients_has (id : string) : io Ctx bool :=
  gets (fun x => bool_decide (is_Some (connectedClients x !! id))).

Definition clients_size (m : gmap string ClientEntry) : value :=
  VNum (pretty (size m)).

Definition notification (meth : string) (params : value) : value :=
  VObj [("jsonrpc", VStr "2.0"); ("method", VStr meth); ("params", params)].

Definition response (id result : value) : value :=
  VObj [("jsonrpc", VStr "2.0"); ("id", id); ("result", result)].

Definition error_response (id msg data : value) : value :=
  VObj [("jsonrpc", VStr "2.0");
        ("id", id);
        ("error",
         VObj [("code", VNum "-32603");
               ("message", js_or msg (VStr "Internal error"));
               ("data", js_or data VNull)])].

Definition sendMCPNotification (meth : string) (params : value) : io Ctx unit :=
  res_write (sse_frame (notification meth params)).


Definition sendMCPError (id error : value) : io Ctx unit :=
  msg ← lift (prop "message" error);
  data ← lift (prop "data" error);
  res_write (sse_frame (error_response id msg data)).

Definition setupSSEHeaders : io Ctx unit := res_writeHead 200 sse_headers.

Definition health_body (clients : gmap string ClientEntry) (iso : string) : value :=
  VObj [("status", VStr "healthy");
        ("timestamp", VStr iso);
        ("service", VStr "playwright-mcp-server");
        ("clients", clients_size clients)].

Definition info_body (env : ProcessEnv) (clients : gmap string ClientEntry)
    (uptime : string) : value :=
  VObj [("name", VStr "Enhanced Playwright MCP HTTP Server");
        ("version", VStr "2.0.0");
        ("endpoints",
         VObj [("health", VStr "/health"); ("mcp", VStr "/mcp"); ("info", VStr "/info")]);
        ("config", playwrightConfig env);
        ("stats",
         VObj [("connectedClients", clients_size clients); ("uptime", VNum uptime)])].

Definition not_found_body : value := VObj [("error", VStr "Not found")].

Definition connect_failed : string := "MCP 연결 실패".
Definition not_loaded : string := "Playwright MCP 모듈이 로드되지 않았습니다".

Definition failure_body (error : exn) : value :=
  VObj [("error", VStr connect_failed);
        ("details", VStr (message error));
        ("stack", VStr (stack error))].

Definition thrown (error : exn) : value :=
  VObj [("message", VStr (message error));
        ("data", VObj [("stack", VStr (stack error))])].

(** The [catch] block of the [/mcp] branch. *)
Definition on_failure (id : string) (error : exn) : io Ctx unit :=
  sent ← gets (fun x => headersSent (res (conn x)));
  (if negb sent
   then reply 500 (failure_body error)
   else sendMCPError VNull (thrown error)) ;;
  known ← clients_has id;
  match known with
  | true => clients_delete id
  | false => mret tt
  end.

(** The [/mcp] branch up to [await createMCPServer()]. *)
Definition mcp_begin (mods : Modules) (id trace : string) : io Ctx unit :=
  assign_clientId id ;;
  try_catch
    (setupSSEHeaders ;;
     (if negb (createConnection mods) then throw (Exn not_loaded trace) else mret tt) ;;
     suspend AwaitCreate)
    (on_failure id).

Definition empty_tools : value := VObj [("tools", VArr [])].

Definition tool_stub (name : string) : value :=
  VObj [("name", VStr name); ("description", VStr ("Playwright tool: " ++ name))].

(** [createMCPServer]: what [createConnection(playwrightConfig)] settles
    with, logged; a failure is thrown again. *)
Definition createMCPServer (settled : result McpServer) : result McpServer :=
  match settled with
  | Ok connection => Ok connection
  | Throw error => Throw error
  end.

(** From the settlement of [createMCPServer()] to the next suspension. *)
Definition mcp_created (mods : Modules) (c : nat) (id : string)
    (outcome : result McpServer) (iso : string) : io Ctx unit :=
  try_catch
    (m ← lift (createMCPServer outcome);
     assign_mcpServer m ;;
     clients_set id (mkClientEntry c m true iso) ;;
     sendMCPNotification "notifications/initialized" (VObj []) ;;
     if SSEServerTransport mods && bool_decide (is_Some (server m))
     then suspend AwaitConnect
     else sendMCPNotification "tools/list" empty_tools ;; listen_close)
    (on_failure id).

(** [Array.from((mcpServer.server._toolHandlers || new Map()).keys())] *)
Definition handler_keys (m : McpServer) : result (list string) :=
  match server m with
  | Some srv =>
      match _toolHandlers srv with
      | NoHandlers => Ok []
      | HandlerMap names => Ok names
      | NotAMap e => Throw e
      end
  | None =>
      Throw (Exn "Cannot read properties of undefined (reading '_toolHandlers')"
                 EmptyString)
  end.

(** The fallback after a failed standard connection. *)
Definition fallback_tools (m : McpServer) : io Ctx unit :=
  try_catch
    (names ← lift (handler_keys m);
     sendMCPNotification "tools/list" (VObj [("tools", VArr (List.map tool_stub names))]))
    (fun toolError => sendMCPNotification "tools/list" empty_tools).

(** From the settlement of [connect(transport)] to the end of the handler. *)
Definition mcp_connected (id : string) (m : McpServer) (outcome : result unit)
  : io Ctx unit :=
  try_catch
    (try_catch (lift outcome) (fun error => fallback_tools m) ;;
     listen_close)
    (on_failure id).

(** What the runtime supplies to one handler invocation: the identifier
    [randomUUID()] returns, the clock reading, [process.uptime()] and the
    stack text of an error created in this turn. *)
Record Ambient : Type := mkAmbient {
  uuid : string;
  iso : string;
  uptime : string;
  trace : string
}.

(** The callback of [http.createServer], up to its first suspension. *)
Definition on_request (mods : Modules) (env : ProcessEnv) (req : Req) (a : Ambient)
  : io Ctx unit :=
  res_cors ;;
  if String.eqb (method req) "OPTIONS" then
    res_writeHead 200 [] ;; res_end None
  else if String.eqb (url req) "/health" then
    clients ← gets connectedClients;
    reply 200 (health_body clients (iso a))
  else if String.eqb (url req) "/mcp" then mcp_begin mods (uuid a) (trace a)
  else if String.eqb (url req) "/" || String.eqb (url req) "/info" then
    clients ← gets connectedClients;
    reply 200 (info_body env clients (uptime a))
  else reply 404 not_found_body.

Record State : Type := mkState {
  modules : Modules;
  environment : ProcessEnv;
  clients : gmap string ClientEntry;     (* the module-level [connectedClients] *)
  conns : gmap nat Conn;                 (* every request seen so far *)
  next_id : nat
}.

Definition init (mods : Modules) (env : ProcessEnv) : State :=
  mkState mods env ∅ ∅ 0.

(** What the runtime delivers to the server.  [Created] and [Connected]
    settle the two awaited promises ([Connected] with an exception also
    stands for a transport constructor that throws).  The handler attaches no
    [data] or [end] listener, so body chunks change nothing.  [Break] is a
    transport failure after which [write] throws.  What the SDK transport
    writes by itself once connected is outside this model: [chunks] records
    the writes of the server's own code. *)
Inductive event : Type :=
| Request (req : Req) (a : Ambient)
| Data (c : nat) (chunk : string)
| End (c : nat)
| Created (c : nat) (outcome : result McpServer) (now : string)
| Connected (c : nat) (outcome : result unit)
| Close (c : nat)
| Break (c : nat) (e : exn).

(** Run a piece of handler code on connection [c]; an exception that
    escapes it is not handled by the server. *)
Definition run (h : io Ctx unit) (c : nat) (cn : Conn) (st : State) : State :=
  let x := (h (mkCtx cn (clients st))).1 in
  mkState (modules st) (environment st) (connectedClients x)
          (<[c := conn x]> (conns st)) (next_id st).

Definition resume (cn : Conn) : Conn :=
  mkConn (res cn) (clientId cn) (mcpServer cn) Done (closeListener cn).

Definition step (st : State) (ev : event) : State :=
  match ev with
  | Request req a =>
      let st' := run (on_request (modules st) (environment st) req a)
                     (next_id st) new_conn st in
      mkState (modules st') (environment st') (clients st') (conns st')
              (S (next_id st))
  | Data _ _ | End _ => st
  | Created c outcome now =>
      match conns st !! c with
      | Some cn =>
          match pending cn, clientId cn with
          | AwaitCreate, Some id =>
              run (mcp_created (modules st) c id outcome now) c (resume cn) st
          | _, _ => st
          end
      | None => st
      end
  | Connected c outcome =>
      match conns st !! c with
      | Some cn =>
          match pending cn, clientId cn, mcpServer cn with
          | AwaitConnect, Some id, Some m =>
              run (mcp_connected id m outcome) c (resume cn) st
          | _, _, _ => st
          end
      | None => st
      end
  | Close c =>
      match conns st !! c with
      | Some cn =>
          match closeListener cn, clientId cn with
          | true, Some id => run (clients_delete id) c cn st
          | _, _ => st
          end
      | None => st
      end
  | Break c e =>
      match conns st !! c with
      | Some cn =>
          run (modify (with_res (break e))) c cn st
      | None => st
      end
  end.

Definition exec (st : State) (evs : list event) : State := foldl step st evs.

(** The response object of a request arriving in state [st]. *)
Definition answer (st : State) (req : Req) (a : Ambient) : option Conn :=
  conns (step st (Request req a)) !! next_id st.

(** The three messages the [/mcp] branch can put on a stream. *)
Definition initialized : value := notification "notifications/initialized" (VObj []).

Definition tools_list (names : list string) : value :=
  notification "tools/list" (VObj [("tools", VArr (List.map tool_stub names))]).

Definition failure (error : exn) : value :=
  error_response VNull (VStr (message error)) (VObj [("stack", VStr (stack error))]).

(** The streams the [/mcp] branch can have produced once it has run to its
    end, by whether it reached [req.on('close', ...)], the last statement of
    its [try] block. *)
Inductive stream_log : bool -> list string -> Prop :=
| log_nothing : stream_log false []
| log_failure (e : exn) : stream_log false [sse_frame (failure e)]
| log_initialized (listening : bool) : stream_log listening [sse_frame initialized]
| log_tools (names : list string) :
    stream_log true [sse_frame initialized; sse_frame (tools_list names)].

(** A streaming connection, phase by phase. *)
Definition conn_ok (cn : Conn) : Prop :=
  match clientId cn with
  | None => mcpServer cn = None /\ pending cn = Done /\ closeListener cn = false
  | Some _ =>
      headersSent (res cn) = true /\ ended (res cn) = false /\
      match pending cn with
      | AwaitCreate =>
          chunks (res cn) = [] /\ mcpServer cn = None /\ closeListener cn = false
      | AwaitConnect =>
          chunks (res cn) = [sse_frame initialized] /\
          is_Some (mcpServer cn) /\ closeListener cn = false
      | Done => stream_log (closeListener cn) (chunks (res cn))
      end
  end.

(** Every entry of [connectedClients] was made by a handler invocation that
    holds the session stored in it. *)
Definition entry_ok (st : State) (id : string) (e : ClientEntry) : Prop :=
  exists cn, conns st !! entry_res e = Some cn /\
             clientId cn = Some id /\
             mcpServer cn = Some (entry_mcpServer e).

Record invariant (st : State) : Prop := mkInvariant {
  inv_fresh : forall c cn, conns st !! c = Some cn -> c < next_id st;
  inv_conns : forall c cn, conns st !! c = Some cn -> conn_ok cn;
  inv_clients : forall id e, clients st !! id = Some e -> entry_ok st id e
}.

(** [m'] holds no entry that [m] does not hold. *)
Definition below (m' m : gmap string ClientEntry) : Prop :=
  forall k e, m' !! k = Some e -> m !! k = Some e.

(** What a piece of the [/mcp] branch, run on connection [c], leaves behind:
    a well-formed connection with the same identity, and a registry whose
    new entries belong to [c]. *)
Definition effect (old : gmap string ClientEntry) (c : nat) (cn : Conn) (x : Ctx) : Prop :=
  conn_ok (conn x) /\
  (forall id, clientId cn = Some id -> clientId (conn x) = Some id) /\
  (forall m, mcpServer cn = Some m -> mcpServer (conn x) = Some m) /\
  (forall id e, connectedClients x !! id = Some e ->
     old !! id = Some e \/
     (entry_res e = c /\ clientId (conn x) = Some id /\
      mcpServer (conn x) = Some (entry_mcpServer e))).

(** A connection keeps its identifier, and its stream only grows. *)
Definition continues : relation Conn := fun cn cn' =>
  grows res cn cn' /\ clientId cn' = clientId cn.

Definition carries_on : relation Ctx := fun x x' => continues (conn x) (conn x').

(** A connection whose handler has run to its end stays as it is, but for
    the state of its transport. *)
Definition rests : relation Conn := fun cn cn' =>
  pending cn' = Done /\
  chunks (res cn') = chunks (res cn) /\
  ended (res cn') = ended (res cn) /\
  clientId cn' = clientId cn /\
  mcpServer cn' = mcpServer cn /\
  closeListener cn' = closeListener cn.

(** Sample runs. *)
Definition loaded : Modules := mkModules true true.
Definition defaults : ProcessEnv := mkProcessEnv None None.

Definition ambient (id : string) : Ambient :=
  mkAmbient id "2025-01-01T12:00:00.000Z" "12.5" "Error: at Server.<anonymous>".

Definition engine : McpServer :=
  mkMcpServer (Some (mkSdkServer (HandlerMap ["browser_navigate"; "browser_click"]))).

Definition no_browser : exn := Exn "browser executable not found" "at launch".

(** A client connects and its session is established. *)
Definition session_open : list event :=
  [Request (mkReq "GET" "/mcp") (ambient "client-1");
   Created 0 (Ok engine) "2025-01-01T12:00:01.000Z";
   Connected 0 (Ok tt)].

Definition navigate : value :=
  VObj [("jsonrpc", VStr "2.0");
        ("id", VStr "1");
        ("method", VStr "browser_navigate");
        ("params", VObj [("url", VStr "https://example.com")])].

(** The client posts a request frame to the streaming endpoint. *)
Definition request_delivery : list event :=
  [Request (mkReq "POST" "/mcp") (ambient "client-2");
   Data 1 (shown (JSON_stringify navigate));
   End 1].

(** The session factory fails. *)
Definition failed_negotiation : list event :=
  [Request (mkReq "GET" "/mcp") (ambient "client-1");
   Created 0 (Throw no_browser) "2025-01-01T12:00:01.000Z"].

(** The client goes away while [createMCPServer()] is still pending. *)
Definition early_close : list event :=
  [Request (mkReq "GET" "/mcp") (ambient "client-1");
   Close 0;
   Created 0 (Ok engine) "2025-01-01T12:00:01.000Z";
   Connected 0 (Ok tt)].

(** The same client going away after the handler has finished. *)
Definition late_close : list event :=
  [Request (mkReq "GET" "/mcp") (ambient "client-1");
   Created 0 (Ok engine) "2025-01-01T12:00:01.000Z";
   Connected 0 (Ok tt);
   Close 0].


(** The client identifier an event is about. *)
Definition subject (st : State) (ev : event) : option string :=
  match ev with
  | Request _ a => Some (uuid a)
  | Data _ _ | End _ => None
  | Created c _ _ | Connected c _ | Close c | Break c _ =>
      match conns st !! c with
      | Some cn => clientId cn
      | None => None
      end
  end.

(** How many sessions the events created. *)
Fixpoint sessions_created (evs : list event) : nat :=
  match evs with
  | [] => 0
  | Created _ (Ok _) _ :: rest => S (sessions_created rest)
  | _ :: rest => sessions_created rest
  end.

(** A whole visit of connection [c]: the session is created, the standard
    connection is attempted where the handler attempts it, the client goes
    away. *)
Definition visit (mods : Modules) (c : nat) (m : McpServer) (now : string)
    (outcome : result unit) : list event :=
  if SSEServerTransport mods && bool_decide (is_Some (server m))
  then [Created c (Ok m) now; Connected c outcome; Close c]
  else [Created c (Ok m) now; Close c].

End Full.

(** ** Proofs *)

Import Js.
Import Full.

Ltac break_match :=
  repeat match goal with
         | |- context [match ?x with _ => _ end] => destruct x eqn:?
         end.

(** *** Handler code that only appends to its stream *)

Section Preserves.
Context {S : Type} (R : relation S) `{!Reflexive R, !Transitive R}.

Lemma preserves_ret {A} (a : A) : preserves R (mret a : io S A).
Proof. intros s. reflexivity. Qed.

Lemma preserves_pure {A} (f : S -> result A) : preserves R (fun s => (s, f s)).
Proof. intros s. reflexivity. Qed.

Lemma preserves_bind {A B} (m : io S A) (f : A -> io S B) :
  preserves R m -> (forall a, preserves R (f a)) -> preserves R (m ≫= f).
Proof.
  intros Hm Hf s. unfold mbind, io_bind.
  pose proof (Hm s) as H1. destruct (m s) as [s' [a|e]]; simpl in *; [|exact H1].
  etransitivity; [exact H1|apply Hf].
Qed.

Lemma preserves_try_catch {A} (body : io S A) (handler : exn -> io S A) :
  preserves R body -> (forall e, preserves R (handler e)) ->
  preserves R (try_catch body handler).
Proof.
  intros Hm Hf s. unfold try_catch.
  pose proof (Hm s) as H1. destruct (body s) as [s' [a|e]]; simpl in *; [exact H1|].
  etransitivity; [exact H1|apply Hf].
Qed.

End Preserves.

#[local] Instance grows_refl {S} (the_res : S -> Res) : Reflexive (grows the_res).
Proof. intros s. exists []. by rewrite app_nil_r. Qed.

#[local] Instance grows_trans {S} (the_res : S -> Res) : Transitive (grows the_res).
Proof.
  intros a b c [m1 H1] [m2 H2]. exists (m1 ++ m2)%list. rewrite H2, H1. by rewrite app_assoc.
Qed.

Lemma grows_same {S} (the_res : S -> Res) s s' :
  chunks (the_res s') = chunks (the_res s) -> grows the_res s s'.
Proof. intros H. exists []. by rewrite app_nil_r. Qed.

Lemma writeHead_chunks status hs r r' : writeHead status hs r = Ok r' -> chunks r' = chunks r.
Proof. unfold writeHead. destruct (headersSent r); [discriminate|]. by intros [= <-]. Qed.

Lemma write_chunks chunk r r' : write chunk r = Ok r' -> chunks r' = (chunks r ++ [chunk])%list.
Proof. unfold write. destruct (broken r); [discriminate|]. by intros [= <-]. Qed.

Lemma writeHead_grows status hs r r' : writeHead status hs r = Ok r' -> grows id r r'.
Proof. intros H. exists []. simpl. rewrite (writeHead_chunks _ _ _ _ H). by rewrite app_nil_r. Qed.

Lemma write_grows chunk r r' : write chunk r = Ok r' -> grows id r r'.
Proof. intros H. exists [chunk]. by apply write_chunks. Qed.

Lemma lookup_one {A} (x y : A) i : [x] !! i = Some y -> i = 0 /\ x = y.
Proof. destruct i as [|i]; simpl; [by intros [= ->]|by rewrite lookup_nil]. Qed.

Lemma lookup_two {A} (x1 x2 y : A) i :
  [x1; x2] !! i = Some y -> (i = 0 /\ x1 = y) \/ (i = 1 /\ x2 = y).
Proof.
  destruct i as [|i]; simpl; [by intros [= ->]; left|].
  intros H. apply lookup_one in H as [-> ->]. by right.
Qed.

Lemma eqb_false_of_ne (a b : string) : a <> b -> String.eqb a b = false.
Proof. intros H. by apply String.eqb_neq. Qed.

(** *** The simple server *)

Lemma simple_step_tools st ev : Simple.tools (Simple.step st ev) = Simple.tools st.
Proof. destruct ev; simpl; try reflexivity; break_match; reflexivity. Qed.

Lemma simple_exec_tools evs : forall st, Simple.tools (Simple.exec st evs) = Simple.tools st.
Proof.
  induction evs as [|ev evs IH]; intros st; simpl; [reflexivity|].
  unfold Simple.exec in IH. rewrite IH. apply simple_step_tools.
Qed.

Lemma simple_put_fresh st c cn cn0 :
  Simple.fresh st -> Simple.conns st !! c = Some cn0 -> Simple.fresh (Simple.put c cn st).
Proof.
  intros Hf Hc c' cn'. simpl. rewrite lookup_insert.
  case_decide; [subst c'; intros _; eapply Hf, Hc | apply Hf].
Qed.

Lemma simple_step_fresh st ev : Simple.fresh st -> Simple.fresh (Simple.step st ev).
Proof.
  intros Hf. destruct ev; simpl; unfold Simple.run; break_match;
    eauto using simple_put_fresh.
  intros c cn. simpl. rewrite lookup_insert.
  case_decide; [subst; lia | intros Hl; apply Hf in Hl; lia].
Qed.

Lemma simple_exec_fresh evs : forall st, Simple.fresh st -> Simple.fresh (Simple.exec st evs).
Proof.
  induction evs as [|ev evs IH]; intros st Hf; [exact Hf|].
  apply (IH (Simple.step st ev)), simple_step_fresh, Hf.
Qed.

Lemma simple_init_fresh : Simple.fresh Simple.init.
Proof. intros c cn H. simpl in H. rewrite lookup_empty in H. discriminate. Qed.

Lemma simple_reach_fresh evs : Simple.fresh (Simple.exec Simple.init evs).
Proof. apply simple_exec_fresh, simple_init_fresh. Qed.

Lemma simple_on_res_grows f :
  (forall r r', f r = Ok r' -> grows id r r') ->
  preserves (grows Simple.res) (Simple.on_res f).
Proof.
  intros H [r b t]. unfold Simple.on_res. simpl.
  destruct (f r) as [r'|e] eqn:E; simpl; [|reflexivity].
  destruct (H r r' E) as [more Hm]. by exists more.
Qed.

Lemma simple_end_grows data : preserves (grows Simple.res) (Simple.res_end data).
Proof. intros [r b t]. simpl. eexists. reflexivity. Qed.

Lemma simple_clearInterval_grows : preserves (grows Simple.res) Simple.clearInterval.
Proof. intros [r b t]. by apply grows_same. Qed.

Lemma simple_reply_grows status payload :
  preserves (grows Simple.res) (Simple.reply status payload).
Proof.
  apply preserves_bind; try apply _.
  - apply simple_on_res_grows, writeHead_grows.
  - intros; apply simple_end_grows.
Qed.

Lemma simple_on_end_grows parsed iso : preserves (grows Simple.res) (Simple.on_end parsed iso).
Proof.
  apply preserves_try_catch; try apply _; [|intros; apply simple_reply_grows].
  apply preserves_bind; try apply _; [apply preserves_pure; apply _|intros request].
  apply preserves_bind; try apply _; [apply preserves_pure; apply _|intros result].
  apply simple_reply_grows.
Qed.

Lemma simple_on_tick_grows iso : preserves (grows Simple.res) (Simple.on_tick iso).
Proof.
  apply preserves_try_catch; try apply _.
  - apply simple_on_res_grows, write_grows.
  - intros; apply simple_clearInterval_grows.
Qed.

Lemma simple_step_grows st ev c cn :
  Simple.fresh st -> Simple.conns st !! c = Some cn ->
  exists cn', Simple.conns (Simple.step st ev) !! c = Some cn' /\ grows Simple.res cn cn'.
Proof.
  intros Hf Hc.
  assert (Hsame : exists cn', Simple.conns st !! c = Some cn' /\ grows Simple.res cn cn').
  { exists cn. split; [done|reflexivity]. }
  assert (Hrun : forall h c0 cn0, preserves (grows Simple.res) h ->
            Simple.conns st !! c0 = Some cn0 ->
            forall cn1, grows Simple.res cn0 cn1 ->
            exists cn', Simple.conns (Simple.run h c0 cn1 st) !! c = Some cn' /\
                        grows Simple.res cn cn').
  { intros h c0 cn0 Hh Hc0 cn1 H1. simpl. rewrite lookup_insert. case_decide; [|exact Hsame].
    subst c0. rewrite Hc in Hc0. injection Hc0 as <-.
    exists (h cn1).1. split; [reflexivity|]. etransitivity; [exact H1|apply Hh]. }
  destruct ev as [req now iso|c0 chunk|c0 parsed iso|c0 iso|c0|c0 e|c0 e]; simpl.
  - rewrite lookup_insert. case_decide; [|exact Hsame].
    apply Hf in Hc. lia.
  - destruct (Simple.conns st !! c0) as [cn0|] eqn:E0; [|exact Hsame].
    destruct (Simple.body cn0); [|exact Hsame].
    simpl. rewrite lookup_insert. case_decide; [|exact Hsame].
    subst c0. rewrite Hc in E0. injection E0 as <-. eexists. split; [reflexivity|].
    by apply grows_same.
  - destruct (Simple.conns st !! c0) as [cn0|] eqn:E0; [|exact Hsame].
    destruct (Simple.body cn0); [|exact Hsame].
    eapply Hrun; eauto using simple_on_end_grows. reflexivity.
  - destruct (Simple.conns st !! c0) as [cn0|] eqn:E0; [|exact Hsame].
    destruct (Simple.heartbeatInterval cn0) as [t|] eqn:Et; [|exact Hsame].
    destruct (Simple.active t); [|exact Hsame].
    eapply Hrun; eauto using simple_on_tick_grows. by apply grows_same.
  - destruct (Simple.conns st !! c0) as [cn0|] eqn:E0; [|exact Hsame].
    destruct (Simple.heartbeatInterval cn0) as [t|] eqn:Et; [|exact Hsame].
    eapply Hrun; eauto using simple_clearInterval_grows. reflexivity.
  - destruct (Simple.conns st !! c0) as [cn0|] eqn:E0; [|exact Hsame].
    destruct (Simple.heartbeatInterval cn0) as [t|] eqn:Et; [|exact Hsame].
    eapply Hrun; eauto using simple_clearInterval_grows. reflexivity.
  - destruct (Simple.conns st !! c0) as [cn0|] eqn:E0; [|exact Hsame].
    simpl. rewrite lookup_insert. case_decide; [|exact Hsame].
    subst c0. rewrite Hc in E0. injection E0 as <-. eexists. split; [reflexivity|].
    by apply grows_same.
Qed.

Lemma simple_mcp_answer st req now iso :
  method req <> "OPTIONS" -> url req = "/mcp" ->
  Simple.answer st req now iso
  = Some (Simple.mkConn
            (mkRes true (Some 200) (with_headers sse_headers (headers (cors fresh_res)))
               [sse_frame Simple.initMessage;
                sse_frame (Simple.serverInfo (Simple.tools st));
                sse_frame (Simple.toolsList (Simple.tools st))]
               false None)
            None
            (Some (Simple.mkTimer Simple.heartbeat_ms (now + Simple.heartbeat_ms)%N true))).
Proof.
  intros Hm Hu. unfold Simple.answer. simpl. rewrite lookup_insert_eq.
  unfold Simple.on_request. destruct req as [m u]; simpl in *. subst u.
  rewrite (eqb_false_of_ne _ _ Hm). reflexivity.
Qed.

Lemma simple_health_answer st req now iso :
  method req <> "OPTIONS" -> url req = "/health" ->
  Simple.answer st req now iso
  = Some (Simple.mkConn
            (mkRes true (Some 200) (with_headers json_headers (headers (cors fresh_res)))
               [shown (JSON_stringify (Simple.health_body (Simple.tools st) iso))]
               true None)
            None None).
Proof.
  intros Hm Hu. unfold Simple.answer. simpl. rewrite lookup_insert_eq.
  unfold Simple.on_request. destruct req as [m u]; simpl in *. subst u.
  rewrite (eqb_false_of_ne _ _ Hm). reflexivity.
Qed.

Lemma simple_tools_answer st req now iso :
  method req <> "OPTIONS" -> url req = "/tools" ->
  Simple.answer st req now iso
  = Some (Simple.mkConn
            (mkRes true (Some 200) (with_headers json_headers (headers (cors fresh_res)))
               [shown (JSON_stringify (Simple.tools_body (Simple.tools st)))]
               true None)
            None None).
Proof.
  intros Hm Hu. unfold Simple.answer. simpl. rewrite lookup_insert_eq.
  unfold Simple.on_request. destruct req as [m u]; simpl in *. subst u.
  rewrite (eqb_false_of_ne _ _ Hm). reflexivity.
Qed.

Lemma simple_request_frame st req now iso :
  Simple.tools (Simple.step st (Simple.Request req now iso)) = Simple.tools st /\
  forall c, c <> Simple.next_id st ->
    Simple.conns (Simple.step st (Simple.Request req now iso)) !! c = Simple.conns st !! c.
Proof. split; [reflexivity|]. intros c Hc. simpl. by rewrite lookup_insert_ne. Qed.

Lemma simple_tick st c cn t iso :
  Simple.conns st !! c = Some cn ->
  Simple.heartbeatInterval cn = Some t -> Simple.active t = true ->
  Simple.step st (Simple.Tick c iso)
  = Simple.put c
      (match broken (Simple.res cn) with
       | None =>
           Simple.mkConn
             (mkRes (headersSent (Simple.res cn)) (statusCode (Simple.res cn))
                (headers (Simple.res cn))
                (chunks (Simple.res cn) ++ [sse_frame (Simple.heartbeat iso)])
                (ended (Simple.res cn)) None)
             (Simple.body cn)
             (Some (Simple.mkTimer (Simple.period t) (Simple.due t + Simple.period t)%N true))
       | Some _ =>
           Simple.mkConn (Simple.res cn) (Simple.body cn)
             (Some (Simple.mkTimer (Simple.period t) (Simple.due t + Simple.period t)%N false))
       end) st.
Proof.
  intros Hc Ht Ha. simpl. rewrite Hc, Ht, Ha. unfold Simple.run. f_equal.
  destruct cn as [r b ti]; simpl in *. subst ti.
  unfold Simple.on_tick, try_catch, Simple.res_write, Simple.on_res, write. simpl.
  destruct (broken r) eqn:E; simpl; rewrite ?Ha; reflexivity.
Qed.

Lemma simple_data_body c pieces : forall st r b t,
  Simple.conns st !! c = Some (Simple.mkConn r (Some b) t) ->
  Simple.conns (Simple.exec st (List.map (Simple.Data c) pieces)) !! c
  = Some (Simple.mkConn r (Some (foldl String.append b pieces)) t)
  /\ Simple.tools (Simple.exec st (List.map (Simple.Data c) pieces)) = Simple.tools st.
Proof.
  induction pieces as [|p ps IH]; intros st r b t H; simpl; [done|].
  rewrite H. simpl.
  destruct (IH (Simple.put c (Simple.mkConn r (Some (b ++ p)) t) st) r (b ++ p) t) as [IH1 IH2].
  { simpl. apply lookup_insert_eq. }
  split; [exact IH1 | exact IH2].
Qed.

Lemma simple_execute_conn st now iso0 pieces parsed iso :
  Simple.conns (Simple.exec st (Simple.execute_exchange st now iso0 pieces parsed iso))
    !! Simple.next_id st
  = Some (Simple.on_end parsed iso
            (Simple.mkConn (cors fresh_res) (Some (foldl String.append EmptyString pieces)) None)).1.
Proof.
  unfold Simple.execute_exchange, Simple.exec. cbn [foldl]. rewrite foldl_app.
  set (st1 := Simple.step st _).
  assert (H1 : Simple.conns st1 !! Simple.next_id st
               = Some (Simple.mkConn (cors fresh_res) (Some EmptyString) None)).
  { subst st1. simpl. by rewrite lookup_insert_eq. }
  destruct (simple_data_body (Simple.next_id st) pieces st1 _ _ _ H1) as [H2 _].
  unfold Simple.exec in H2. simpl. rewrite H2. simpl. by rewrite lookup_insert_eq.
Qed.

Lemma execution_ok request text iso :
  request <> VNull -> request <> VUndefined ->
  to_string (get "tool" request) = Ok text ->
  Simple.execution request iso
  = Ok (VObj [("tool", get "tool" request);
              ("status", VStr "success");
              ("result", VStr ("Executed " ++ text ++ " with params: "
                                 ++ shown (JSON_stringify (get "params" request))));
              ("timestamp", VStr iso)]).
Proof.
  intros Hn Hu Ht. unfold Simple.execution.
  assert (Hp : forall k, prop k request = Ok (get k request)) by (intros k; by destruct request).
  rewrite !Hp. simpl. rewrite Ht. reflexivity.
Qed.

(** What an [/execute] exchange leaves on its response. *)
Lemma simple_execute_answer st now iso0 pieces parsed iso :
  exists cn,
    Simple.conns (Simple.exec st (Simple.execute_exchange st now iso0 pieces parsed iso))
      !! Simple.next_id st = Some cn /\
    ended (Simple.res cn) = true /\
    match parsed with
    | Ok request =>
        match Simple.execution request iso with
        | Ok result =>
            statusCode (Simple.res cn) = Some 200 /\
            chunks (Simple.res cn)
            = match JSON_stringify result with Some text => [text] | None => [] end
        | Throw e =>
            statusCode (Simple.res cn) = Some 400 /\
            chunks (Simple.res cn) = [shown (JSON_stringify (Simple.rejection_body e))]
        end
    | Throw e =>
        statusCode (Simple.res cn) = Some 400 /\
        chunks (Simple.res cn) = [shown (JSON_stringify (Simple.rejection_body e))]
    end.
Proof.
  eexists. split; [apply simple_execute_conn|].
  unfold Simple.on_end, try_catch, mbind, io_bind, lift.
  destruct parsed as [request|e]; simpl; [|repeat split; reflexivity].
  destruct (Simple.execution request iso) as [result|e]; simpl; repeat split; reflexivity.
Qed.

(** *** The full server: what each piece of the handler leaves behind *)

Arguments sse_frame : simpl never.
Arguments failure : simpl never.
Arguments error_response : simpl never.
Arguments notification : simpl never.

Lemma on_failure_sent id error r cid ms ph cl old :
  headersSent r = true ->
  exists old',
    (on_failure id error (mkCtx (mkConn r cid ms ph cl) old)).1
    = mkCtx (mkConn (match broken r with
                     | None => mkRes (headersSent r) (statusCode r) (headers r)
                                 (chunks r ++ [sse_frame (failure error)]) (ended r) None
                     | Some _ => r
                     end) cid ms ph cl) old'
    /\ forall k e, old' !! k = Some e -> old !! k = Some e.
Proof.
  intros Hs. destruct r as [hs sc hd ch en br]; simpl in *; subst hs.
  unfold on_failure, mbind, io_bind, gets. simpl.
  unfold sendMCPError, mbind, io_bind, lift, res_write, on_res, write. simpl.
  destruct br as [e'|]; simpl.
  - by exists old.
  - unfold clients_has, gets. simpl.
    destruct (bool_decide _); simpl.
    + exists (delete id old). split; [reflexivity|].
      intros k e H. apply lookup_delete_Some in H. tauto.
    + by exists old.
Qed.

Ltac io_unfold :=
  unfold mcp_created, mcp_connected, mcp_begin, fallback_tools, on_failure,
    sendMCPError, sendMCPNotification, setupSSEHeaders, reply,
    try_catch, mbind, io_bind, mret, io_ret, lift, gets, modify, throw,
    res_write, res_writeHead, res_end, res_cors, on_res, write, writeHead,
    assign_clientId, assign_mcpServer, suspend, listen_close,
    clients_set, clients_delete, clients_has, with_res; simpl.

Lemma mcp_created_eval mods c id outcome iso r old :
  headersSent r = true ->
  let x := (mcp_created mods c id outcome iso
              (mkCtx (mkConn r (Some id) None Done false) old)).1 in
  match outcome, broken r with
  | Throw e, None =>
      conn x = mkConn (wrote [sse_frame (failure e)] r) (Some id) None Done false /\
      below (connectedClients x) old
  | Throw e, Some _ =>
      conn x = mkConn r (Some id) None Done false /\ connectedClients x = old
  | Ok m, Some _ =>
      conn x = mkConn r (Some id) (Some m) Done false /\
      connectedClients x = <[id := mkClientEntry c m true iso]> old
  | Ok m, None =>
      connectedClients x = <[id := mkClientEntry c m true iso]> old /\
      conn x =
        if SSEServerTransport mods && bool_decide (is_Some (server m))
        then mkConn (wrote [sse_frame initialized] r) (Some id) (Some m) AwaitConnect false
        else mkConn (wrote [sse_frame initialized; sse_frame (tools_list [])] r)
               (Some id) (Some m) Done true
  end.
Proof.
  intros Hs. destruct r as [hs sc hd ch en br]; simpl in *; subst hs.
  destruct outcome as [m|e], br as [e'|]; io_unfold.
  - done.
  - destruct (SSEServerTransport mods && bool_decide (is_Some (server m))); simpl;
      (split; [reflexivity|]); [reflexivity|].
    unfold wrote. simpl. by rewrite <- app_assoc.
  - done.
  - destruct (bool_decide _); simpl; (split; [reflexivity|]); unfold below; [|done].
    intros k e0 H. apply lookup_delete_Some in H. tauto.
Qed.

Lemma mcp_connected_eval id m outcome r ms old :
  headersSent r = true ->
  let x := (mcp_connected id m outcome (mkCtx (mkConn r (Some id) ms Done false) old)).1 in
  connectedClients x = old /\
  conn x =
    match outcome, broken r with
    | Ok _, _ => mkConn r (Some id) ms Done true
    | Throw _, Some _ => mkConn r (Some id) ms Done false
    | Throw _, None =>
        mkConn (wrote [sse_frame (tools_list (match handler_keys m with
                                              | Ok names => names
                                              | Throw _ => []
                                              end))] r)
          (Some id) ms Done true
    end.
Proof.
  intros Hs. destruct r as [hs sc hd ch en br]; simpl in *; subst hs.
  destruct outcome as [[]|e], br as [e'|]; io_unfold; try done.
  all: unfold handler_keys; destruct (server m) as [[[|names|e0]]|]; simpl; done.
Qed.

Lemma mcp_begin_eval mods id trace old :
  let x := (mcp_begin mods id trace
              (mkCtx (mkConn (cors fresh_res) None None Done false) old)).1 in
  if createConnection mods
  then conn x = mkConn (mkRes true (Some 200) (with_headers sse_headers (headers (cors fresh_res)))
                          [] false None)
                  (Some id) None AwaitCreate false /\
       connectedClients x = old
  else conn x = mkConn (mkRes true (Some 200) (with_headers sse_headers (headers (cors fresh_res)))
                          [sse_frame (failure (Exn not_loaded trace))] false None)
                  (Some id) None Done false /\
       below (connectedClients x) old.
Proof.
  destruct (createConnection mods) eqn:E; io_unfold; rewrite E; simpl; [done|].
  destruct (bool_decide _); simpl; (split; [reflexivity|]); unfold below; [|done].
  intros k e0 H. apply lookup_delete_Some in H. tauto.
Qed.

Lemma on_request_effect mods env req a old :
  let x := (on_request mods env req a (mkCtx new_conn old)).1 in
  conn_ok (conn x) /\ below (connectedClients x) old.
Proof.
  assert (Hplain : forall x : Ctx,
            conn_ok (conn x) -> connectedClients x = old ->
            conn_ok (conn x) /\ below (connectedClients x) old).
  { intros x H ->. split; [exact H|]. by intros ??. }
  unfold on_request. simpl.
  change (mbind ?f res_cors ?s) with (f tt (mkCtx (mkConn (cors fresh_res) None None Done false) old)).
  cbv beta.
  destruct (String.eqb (method req) "OPTIONS"); [by apply Hplain|].
  destruct (String.eqb (url req) "/health"); [by apply Hplain|].
  destruct (String.eqb (url req) "/mcp").
  { pose proof (mcp_begin_eval mods (uuid a) (trace a) old) as H. simpl in H.
    destruct (createConnection mods); destruct H as [H1 H2]; rewrite H1.
    - rewrite H2. split; [by repeat split|by intros ??].
    - split; [|exact H2]. repeat split. apply log_failure. }
  destruct (_ || _); by apply Hplain.
Qed.

(** *** The full server: the invariant of its reachable states *)

Lemma run_invariant st h c cn0 cn :
  invariant st -> conns st !! c = Some cn0 ->
  clientId cn = clientId cn0 -> mcpServer cn = mcpServer cn0 ->
  effect (clients st) c cn (h (mkCtx cn (clients st))).1 ->
  invariant (run h c cn st).
Proof.
  intros [Hf Hc Hk] Hc0 Hid Hms (Hok & Hid' & Hms' & Hent).
  set (x := (h (mkCtx cn (clients st))).1) in *.
  split; simpl; fold x.
  - intros c' cn'. rewrite lookup_insert. case_decide; [subst c'|]; eauto.
  - intros c' cn'. rewrite lookup_insert. case_decide; [|by eauto].
    by intros [= <-].
  - intros id e He. unfold entry_ok. simpl. fold x.
    destruct (Hent id e He) as [Hold|(Hr & Hi & Hm)].
    + destruct (Hk id e Hold) as (cn1 & H1 & H2 & H3).
      rewrite lookup_insert. case_decide as Hd; [|by eauto].
      exists (conn x). split; [reflexivity|]. rewrite <- Hd in H1.
      rewrite Hc0 in H1. injection H1 as <-.
      split; [apply Hid'; congruence | apply Hms'; congruence].
    + rewrite Hr, lookup_insert_eq. by exists (conn x).
Qed.

Ltac solve_log :=
  match goal with
  | |- stream_log _ [] => apply log_nothing
  | |- stream_log _ [sse_frame (failure _)] => apply log_failure
  | |- stream_log _ [_] => apply log_initialized
  | |- stream_log _ [_; _] => apply log_tools
  end.

Ltac solve_conn_ok Hch :=
  unfold conn_ok; simpl; rewrite ?Hch; simpl; split_and!; try done; solve_log.

Lemma full_step_invariant st ev : invariant st -> invariant (step st ev).
Proof.
  intros Hinv. pose proof Hinv as [Hf Hc Hk].
  destruct ev as [req a|c chunk|c|c outcome now|c outcome|c|c e]; simpl; try exact Hinv.
  - (* Request *)
    unfold run.
    destruct (on_request_effect (modules st) (environment st) req a (clients st)) as [Hok Hbelow].
    simpl in Hok, Hbelow.
    set (x := (on_request _ _ req a _).1) in *.
    split; simpl.
    + intros c cn. rewrite lookup_insert. case_decide; [subst; lia|].
      intros H1. apply Hf in H1. lia.
    + intros c cn. rewrite lookup_insert. case_decide; [by intros [= <-]|by eauto].
    + intros id e He. apply Hbelow in He. destruct (Hk id e He) as (cn1 & H1 & H2 & H3).
      exists cn1. simpl. rewrite lookup_insert_ne; [done|].
      apply Hf in H1. lia.
  - (* Created *)
    destruct (conns st !! c) as [cn|] eqn:E; [|exact Hinv].
    destruct (pending cn) eqn:Ea; try exact Hinv.
    destruct (clientId cn) as [id|] eqn:Ei; [|exact Hinv].
    pose proof (Hc c cn E) as Hok. unfold conn_ok in Hok. rewrite Ei, Ea in Hok.
    destruct Hok as (Hs & He & Hch & Hm & Hl).
    destruct cn as [r cid ms ph cl]; simpl in *. subst cid ms ph cl.
    eapply run_invariant; eauto.
    unfold resume. simpl.
    pose proof (mcp_created_eval (modules st) c id outcome now r (clients st) Hs) as Hev.
    simpl in Hev. set (x := (mcp_created _ _ _ _ _ _).1) in *.
    unfold effect.
    destruct outcome as [m|e], (broken r) eqn:Eb.
    + destruct Hev as [-> ->]. split_and!; [solve_conn_ok Hch|done|done|].
      intros k ent. rewrite lookup_insert.
      case_decide; [intros [= <-]; subst; by right|by left].
    + destruct Hev as [-> ->].
      destruct (SSEServerTransport (modules st) && bool_decide (is_Some (server m))).
      * split_and!; [solve_conn_ok Hch|done|done|].
        intros k ent; rewrite lookup_insert;
        (case_decide; [intros [= <-]; subst; by right|by left]).
      * split_and!; [solve_conn_ok Hch|done|done|].
        intros k ent; rewrite lookup_insert;
        (case_decide; [intros [= <-]; subst; by right|by left]).
    + destruct Hev as [-> ->]. split_and!; [solve_conn_ok Hch|done|done|].
      intros; by left.
    + destruct Hev as [-> Hb]. split_and!; [solve_conn_ok Hch|done|done|].
      intros k ent H0. left. by apply Hb.
  - (* Connected *)
    destruct (conns st !! c) as [cn|] eqn:E; [|exact Hinv].
    destruct (pending cn) eqn:Ea; try exact Hinv.
    destruct (clientId cn) as [id|] eqn:Ei; [|exact Hinv].
    destruct (mcpServer cn) as [m|] eqn:Em; [|exact Hinv].
    pose proof (Hc c cn E) as Hok. unfold conn_ok in Hok. rewrite Ei, Ea in Hok.
    destruct Hok as (Hs & He & Hch & _ & Hl).
    destruct cn as [r cid ms ph cl]; simpl in *. subst cid ms ph cl.
    eapply run_invariant; eauto.
    unfold resume. simpl.
    destruct (mcp_connected_eval id m outcome r (Some m) (clients st) Hs) as [Hcl Hcn].
    unfold effect. rewrite Hcl, Hcn.
    destruct outcome as [[]|e], (broken r);
      (split_and!; [solve_conn_ok Hch|done|done|intros; by left]).
  - (* Close *)
    destruct (conns st !! c) as [cn|] eqn:E; [|exact Hinv].
    destruct (closeListener cn) eqn:El; [|exact Hinv].
    destruct (clientId cn) as [id|] eqn:Ei; [|exact Hinv].
    eapply run_invariant; eauto.
    unfold effect. simpl. split_and!; eauto.
    intros k ent H0. apply lookup_delete_Some in H0. left. tauto.
  - (* Break *)
    destruct (conns st !! c) as [cn|] eqn:E; [|exact Hinv].
    eapply run_invariant; eauto.
    unfold effect. simpl. split_and!; eauto.
    pose proof (Hc c cn E) as Hok. unfold conn_ok in *. simpl.
    destruct (clientId cn); [|exact Hok]. exact Hok.
Qed.

Lemma full_init_invariant mods env : invariant (init mods env).
Proof. split; simpl; intros ? ?; rewrite lookup_empty; discriminate. Qed.

Lemma full_exec_invariant evs : forall st, invariant st -> invariant (exec st evs).
Proof.
  induction evs as [|ev evs IH]; intros st H; [exact H|].
  apply (IH (step st ev)), full_step_invariant, H.
Qed.

Lemma full_reach_invariant mods env evs : invariant (exec (init mods env) evs).
Proof. apply full_exec_invariant, full_init_invariant. Qed.

Lemma stream_log_kinds listening log chunk :
  stream_log listening log -> chunk ∈ log ->
  chunk = sse_frame initialized \/
  (exists names, chunk = sse_frame (tools_list names)) \/
  (exists e, chunk = sse_frame (failure e)).
Proof.
  intros [|e|l|names] Hin.
  - by apply elem_of_nil in Hin.
  - apply list_elem_of_singleton in Hin. right; right; eauto.
  - apply list_elem_of_singleton in Hin. by left.
  - apply elem_of_cons in Hin as [->|Hin]; [by left|].
    apply list_elem_of_singleton in Hin. right; left; eauto.
Qed.

Lemma conn_ok_log cn :
  conn_ok cn -> is_Some (clientId cn) -> stream_log (closeListener cn) (chunks (res cn)).
Proof.
  unfold conn_ok. intros H [id Hid]. rewrite Hid in H.
  destruct H as (_ & _ & H). destruct (pending cn).
  - exact H.
  - destruct H as (-> & _ & ->). apply log_nothing.
  - destruct H as (-> & _ & ->). apply log_initialized.
Qed.

Lemma streaming_chunks st c cn chunk :
  invariant st -> conns st !! c = Some cn -> is_Some (clientId cn) ->
  chunk ∈ chunks (res cn) ->
  chunk = sse_frame initialized \/
  (exists names, chunk = sse_frame (tools_list names)) \/
  (exists e, chunk = sse_frame (failure e)).
Proof.
  intros [_ Hc _] Hl Hid. eapply stream_log_kinds, conn_ok_log; eauto.
Qed.

(** Every entry of the registry holds a session that was created
    successfully. *)
Lemma full_registry_sessions mods env evs id e :
  clients (exec (init mods env) evs) !! id = Some e ->
  exists cn, conns (exec (init mods env) evs) !! entry_res e = Some cn /\
             clientId cn = Some id /\ mcpServer cn = Some (entry_mcpServer e).
Proof. intros H. by apply (inv_clients _ (full_reach_invariant mods env evs)). Qed.

(** A close event that finds the handler's listener removes the entry. *)
Lemma full_close_removes st c cn id :
  conns st !! c = Some cn -> closeListener cn = true -> clientId cn = Some id ->
  clients (step st (Close c)) !! id = None.
Proof. intros Hc Hl Hi. simpl. rewrite Hc, Hl, Hi. simpl. apply lookup_delete_eq. Qed.

(** *** The full server: streams only grow, finished handlers rest *)

#[local] Instance continues_refl : Reflexive continues.
Proof. intros cn. split; [reflexivity|done]. Qed.

#[local] Instance continues_trans : Transitive continues.
Proof.
  intros a b c [H1 H2] [H3 H4]. split; [by etransitivity|congruence].
Qed.

#[local] Instance carries_on_refl : Reflexive carries_on.
Proof. intros x. unfold carries_on. reflexivity. Qed.

#[local] Instance carries_on_trans : Transitive carries_on.
Proof. intros a b c. unfold carries_on. apply continues_trans. Qed.

Lemma full_on_res_carries f :
  (forall r r', f r = Ok r' -> grows id r r') -> preserves carries_on (on_res f).
Proof.
  intros H [[r cid ms ph cl] old]. unfold on_res. simpl.
  destruct (f r) as [r'|e] eqn:E; simpl; [|reflexivity].
  destruct (H r r' E) as [more Hm]. split; [by exists more|done].
Qed.

Lemma full_write_carries chunk : preserves carries_on (res_write chunk).
Proof. apply full_on_res_carries, write_grows. Qed.

Lemma full_same_carries (f : Ctx -> Ctx) :
  (forall x, chunks (res (conn (f x))) = chunks (res (conn x)) /\
             clientId (conn (f x)) = clientId (conn x)) ->
  preserves carries_on (modify f).
Proof.
  intros H x. destruct (H x) as [H1 H2]. split; [by apply grows_same|done].
Qed.

Lemma full_notification_carries meth params :
  preserves carries_on (sendMCPNotification meth params).
Proof. apply full_write_carries. Qed.

Lemma full_error_carries id error : preserves carries_on (sendMCPError id error).
Proof.
  apply preserves_bind; try apply _; [apply preserves_pure; apply _|intros msg].
  apply preserves_bind; try apply _; [apply preserves_pure; apply _|intros data].
  apply full_write_carries.
Qed.

Lemma full_reply_carries status payload : preserves carries_on (reply status payload).
Proof.
  apply preserves_bind; try apply _.
  - apply full_on_res_carries, writeHead_grows.
  - intros _ [[r cid ms ph cl] old]. split; [|done]. simpl. eexists. reflexivity.
Qed.

Lemma full_on_failure_carries id error : preserves carries_on (on_failure id error).
Proof.
  apply preserves_bind; try apply _; [apply preserves_pure; apply _|intros sent].
  apply preserves_bind; try apply _.
  - destruct (negb sent); [apply full_reply_carries|apply full_error_carries].
  - intros _. apply preserves_bind; try apply _; [apply preserves_pure; apply _|].
    intros [|]; [by apply full_same_carries|apply preserves_ret; apply _].
Qed.

Lemma full_created_carries mods c id outcome now :
  preserves carries_on (mcp_created mods c id outcome now).
Proof.
  apply preserves_try_catch; try apply _; [|intros; apply full_on_failure_carries].
  apply preserves_bind; try apply _; [apply preserves_pure; apply _|intros m].
  apply preserves_bind; try apply _; [by apply full_same_carries|intros _].
  apply preserves_bind; try apply _; [by apply full_same_carries|intros _].
  apply preserves_bind; try apply _; [apply full_notification_carries|intros _].
  destruct (_ && _); [by apply full_same_carries|].
  apply preserves_bind; try apply _; [apply full_notification_carries|intros _].
  by apply full_same_carries.
Qed.

Lemma full_fallback_carries m : preserves carries_on (fallback_tools m).
Proof.
  apply preserves_try_catch; try apply _; [|intros; apply full_notification_carries].
  apply preserves_bind; try apply _; [apply preserves_pure; apply _|intros names].
  apply full_notification_carries.
Qed.

Lemma full_connected_carries id m outcome :
  preserves carries_on (mcp_connected id m outcome).
Proof.
  apply preserves_try_catch; try apply _; [|intros; apply full_on_failure_carries].
  apply preserves_bind; try apply _; [|intros _; by apply full_same_carries].
  apply preserves_try_catch; try apply _; [apply preserves_pure; apply _|].
  intros; apply full_fallback_carries.
Qed.

Lemma full_step_continues st ev c cn :
  invariant st -> conns st !! c = Some cn ->
  exists cn', conns (step st ev) !! c = Some cn' /\ continues cn cn'.
Proof.
  intros [Hf _ _] Hc.
  assert (Hsame : exists cn', conns st !! c = Some cn' /\ continues cn cn').
  { exists cn. split; [done|reflexivity]. }
  assert (Hrun : forall h c0 cn0 cn1, preserves carries_on h ->
            conns st !! c0 = Some cn0 -> continues cn0 cn1 ->
            exists cn', conns (run h c0 cn1 st) !! c = Some cn' /\ continues cn cn').
  { intros h c0 cn0 cn1 Hh Hc0 H1. simpl. rewrite lookup_insert. case_decide; [|exact Hsame].
    subst c0. rewrite Hc in Hc0. injection Hc0 as <-.
    eexists. split; [reflexivity|]. etransitivity; [exact H1|].
    apply (Hh (mkCtx cn1 (clients st))). }
  assert (Hresume : forall cn0, continues cn0 (resume cn0)).
  { intros cn0. split; [by apply grows_same|done]. }
  destruct ev as [req a|c0 chunk|c0|c0 outcome now|c0 outcome|c0|c0 e]; simpl;
    try exact Hsame.
  - rewrite lookup_insert. case_decide; [|exact Hsame]. apply Hf in Hc. lia.
  - destruct (conns st !! c0) as [cn0|] eqn:E0; [|exact Hsame].
    destruct (pending cn0); try exact Hsame.
    destruct (clientId cn0); [|exact Hsame].
    eapply Hrun; eauto using full_created_carries.
  - destruct (conns st !! c0) as [cn0|] eqn:E0; [|exact Hsame].
    destruct (pending cn0); try exact Hsame.
    destruct (clientId cn0); [|exact Hsame].
    destruct (mcpServer cn0); [|exact Hsame].
    eapply Hrun; eauto using full_connected_carries.
  - destruct (conns st !! c0) as [cn0|] eqn:E0; [|exact Hsame].
    destruct (closeListener cn0); [|exact Hsame].
    destruct (clientId cn0); [|exact Hsame].
    eapply Hrun; eauto; [by apply full_same_carries|reflexivity].
  - destruct (conns st !! c0) as [cn0|] eqn:E0; [|exact Hsame].
    eapply Hrun; eauto; [by apply full_same_carries|reflexivity].
Qed.

Lemma full_exec_continues evs : forall st c cn,
  invariant st -> conns st !! c = Some cn ->
  exists cn', conns (exec st evs) !! c = Some cn' /\ continues cn cn'.
Proof.
  induction evs as [|ev evs IH]; intros st c cn Hinv Hc.
  - exists cn. split; [done|reflexivity].
  - destruct (full_step_continues st ev c cn Hinv Hc) as (cn1 & H1 & H2).
    destruct (IH (step st ev) c cn1 (full_step_invariant _ _ Hinv) H1) as (cn2 & H3 & H4).
    exists cn2. split; [exact H3|by etransitivity].
Qed.

Lemma rests_refl cn : pending cn = Done -> rests cn cn.
Proof. intros H. by split_and!. Qed.

Lemma rests_trans cn1 cn2 cn3 : rests cn1 cn2 -> rests cn2 cn3 -> rests cn1 cn3.
Proof.
  intros (A1 & A2 & A3 & A4 & A5 & A6) (B1 & B2 & B3 & B4 & B5 & B6).
  split_and!; congruence.
Qed.

(** Once the handler of a connection has run to its end, no event makes the
    server write to its stream or change its session. *)
Lemma full_finished_stays st ev c cn :
  invariant st -> conns st !! c = Some cn -> pending cn = Done ->
  exists cn', conns (step st ev) !! c = Some cn' /\ rests cn cn'.
Proof.
  intros [Hf _ _] Hc Ha.
  assert (Hsame : exists cn', conns st !! c = Some cn' /\ rests cn cn')
    by eauto using rests_refl.
  destruct ev as [req a|c0 chunk|c0|c0 outcome now|c0 outcome|c0|c0 e]; simpl;
    try exact Hsame.
  - rewrite lookup_insert. case_decide; [|exact Hsame]. apply Hf in Hc. lia.
  - destruct (conns st !! c0) as [cn0|] eqn:E0; [|exact Hsame].
    destruct (pending cn0) eqn:Ea0; try exact Hsame.
    destruct (clientId cn0); [|exact Hsame].
    simpl. rewrite lookup_insert. case_decide; [|exact Hsame]. congruence.
  - destruct (conns st !! c0) as [cn0|] eqn:E0; [|exact Hsame].
    destruct (pending cn0) eqn:Ea0; try exact Hsame.
    destruct (clientId cn0); [|exact Hsame].
    destruct (mcpServer cn0); [|exact Hsame].
    simpl. rewrite lookup_insert. case_decide; [|exact Hsame]. congruence.
  - destruct (conns st !! c0) as [cn0|] eqn:E0; [|exact Hsame].
    destruct (closeListener cn0); [|exact Hsame].
    destruct (clientId cn0); [|exact Hsame].
    simpl. rewrite lookup_insert. case_decide; [|exact Hsame].
    subst c0. rewrite Hc in E0. injection E0 as <-. eauto using rests_refl.
  - destruct (conns st !! c0) as [cn0|] eqn:E0; [|exact Hsame].
    simpl. rewrite lookup_insert. case_decide; [|exact Hsame].
    subst c0. rewrite Hc in E0. injection E0 as <-.
    eexists. split; [reflexivity|]. by split_and!.
Qed.

Lemma full_finished_stays_exec evs : forall st c cn,
  invariant st -> conns st !! c = Some cn -> pending cn = Done ->
  exists cn', conns (exec st evs) !! c = Some cn' /\ rests cn cn'.
Proof.
  induction evs as [|ev evs IH]; intros st c cn Hinv Hc Ha; [by eauto using rests_refl|].
  destruct (full_finished_stays st ev c cn Hinv Hc Ha) as (cn1 & H1 & H2).
  destruct (IH (step st ev) c cn1 (full_step_invariant _ _ Hinv) H1 (proj1 H2))
    as (cn2 & H3 & H4).
  exists cn2. split; [exact H3|by eapply rests_trans].
Qed.

Lemma full_request_frame st req a :
  modules (step st (Request req a)) = modules st /\
  environment (step st (Request req a)) = environment st /\
  forall c, c <> next_id st -> conns (step st (Request req a)) !! c = conns st !! c.
Proof. repeat split. intros c Hc. simpl. by rewrite lookup_insert_ne. Qed.

Lemma full_health_answer st req a :
  method req <> "OPTIONS" -> url req = "/health" ->
  answer st req a
  = Some (mkConn
            (mkRes true (Some 200) (with_headers json_headers (headers (cors fresh_res)))
               [shown (JSON_stringify (health_body (clients st) (iso a)))] true None)
            None None Done false) /\
  clients (step st (Request req a)) = clients st.
Proof.
  intros Hm Hu. unfold answer. simpl. rewrite lookup_insert_eq.
  unfold on_request. destruct req as [m u]; simpl in *. subst u.
  rewrite (eqb_false_of_ne _ _ Hm). done.
Qed.

Lemma full_read_only st req a :
  url req = "/health" \/ url req = "/info" \/ url req = "/" ->
  clients (step st (Request req a)) = clients st.
Proof.
  intros Hu. simpl. unfold on_request. destruct req as [m u]; simpl in *.
  destruct (String.eqb m "OPTIONS"); [done|].
  destruct Hu as [->|[->| ->]]; done.
Qed.

(** What the stream of a connection holds after its session was created. *)
Lemma full_created_stream st c cn id m now :
  invariant st ->
  conns st !! c = Some cn ->
  pending cn = AwaitCreate -> clientId cn = Some id -> broken (res cn) = None ->
  exists cn',
    conns (step st (Created c (Ok m) now)) !! c = Some cn' /\
    clients (step st (Created c (Ok m) now)) !! id = Some (mkClientEntry c m true now) /\
    if SSEServerTransport (modules st) && bool_decide (is_Some (server m))
    then chunks (res cn') = [sse_frame initialized] /\
         pending cn' = AwaitConnect /\ closeListener cn' = false
    else chunks (res cn') = [sse_frame initialized; sse_frame (tools_list [])] /\
         pending cn' = Done /\ closeListener cn' = true.
Proof.
  intros Hinv Hc Ha Hi Hb.
  pose proof (inv_conns _ Hinv c cn Hc) as Hok. unfold conn_ok in Hok.
  rewrite Hi, Ha in Hok. destruct Hok as (Hs & He & Hch & Hm & Hl).
  destruct cn as [r cid ms ph cl]; simpl in Ha, Hi, Hs, He, Hch, Hm, Hl, Hb.
  subst cid ms ph cl.
  pose proof (mcp_created_eval (modules st) c id (Ok m) now r (clients st) Hs) as Hev.
  simpl in Hev. rewrite Hb in Hev. destruct Hev as [Hcl Hcn].
  simpl. rewrite Hc. simpl. rewrite lookup_insert_eq. unfold resume. simpl.
  eexists. split; [reflexivity|]. rewrite Hcl, Hcn, lookup_insert_eq.
  split; [reflexivity|].
  destruct (SSEServerTransport (modules st) && bool_decide (is_Some (server m)));
    simpl; by rewrite Hch.
Qed.

(** What it holds after the standard connection was attempted. *)
Lemma full_connected_stream st c cn id m outcome :
  invariant st ->
  conns st !! c = Some cn ->
  pending cn = AwaitConnect -> clientId cn = Some id -> mcpServer cn = Some m ->
  broken (res cn) = None ->
  exists cn',
    conns (step st (Connected c outcome)) !! c = Some cn' /\
    pending cn' = Done /\ closeListener cn' = true /\
    chunks (res cn')
    = match outcome with
      | Ok _ => [sse_frame initialized]
      | Throw _ =>
          [sse_frame initialized;
           sse_frame (tools_list match handler_keys m with
                                 | Ok names => names
                                 | Throw _ => []
                                 end)]
      end.
Proof.
  intros Hinv Hc Ha Hi Hm Hb.
  pose proof (inv_conns _ Hinv c cn Hc) as Hok. unfold conn_ok in Hok.
  rewrite Hi, Ha in Hok. destruct Hok as (Hs & He & Hch & _ & Hl).
  destruct cn as [r cid ms ph cl]; simpl in Ha, Hi, Hs, He, Hch, Hm, Hl, Hb.
  subst cid ms ph cl.
  destruct (mcp_connected_eval id m outcome r (Some m) (clients st) Hs) as [Hcl Hcn].
  rewrite Hb in Hcn.
  simpl. rewrite Hc. simpl. rewrite lookup_insert_eq. unfold resume. simpl.
  eexists. split; [reflexivity|]. rewrite Hcn.
  destruct outcome as [[]|e]; simpl; by rewrite ?Hch.
Qed.

Lemma full_step_modules st ev : modules (step st ev) = modules st.
Proof. destruct ev; simpl; try reflexivity; break_match; reflexivity. Qed.

Lemma full_exec_modules evs : forall st, modules (exec st evs) = modules st.
Proof.
  induction evs as [|ev evs IH]; intros st; [reflexivity|].
  simpl. unfold exec in IH. rewrite IH. apply full_step_modules.
Qed.

(** *** Telling frames apart *)

(** Frames are told apart by their first few characters. *)
Ltac frames_differ H :=
  unfold sse_frame, shown, failure, error_response, initialized, tools_list,
    notification, response in H;
  simpl in H;
  repeat match type of H with
         | context [JSON_stringify ?v] => destruct (JSON_stringify v)
         end;
  simpl in H; discriminate H.

Lemma tools_list_not_initialized params :
  sse_frame (notification "tools/list" params) <> sse_frame initialized.
Proof. intros H. frames_differ H. Qed.

Lemma tools_list_not_failure params e :
  sse_frame (notification "tools/list" params) <> sse_frame (failure e).
Proof. intros H. frames_differ H. Qed.

Lemma response_not_initialized id r :
  sse_frame (response (VStr id) r) <> sse_frame initialized.
Proof. intros H. frames_differ H. Qed.

Lemma response_not_failure id r e :
  sse_frame (response (VStr id) r) <> sse_frame (failure e).
Proof. intros H. frames_differ H. Qed.

Lemma response_not_tools_list id r names :
  sse_frame (response (VStr id) r) <> sse_frame (tools_list names).
Proof. intros H. frames_differ H. Qed.

Lemma error_response_not_initialized id msg data :
  sse_frame (error_response (VStr id) msg data) <> sse_frame initialized.
Proof. intros H. frames_differ H. Qed.

Lemma error_response_not_failure id msg data e :
  sse_frame (error_response (VStr id) msg data) <> sse_frame (failure e).
Proof. intros H. frames_differ H. Qed.

Lemma error_response_not_tools_list id msg data names :
  sse_frame (error_response (VStr id) msg data) <> sse_frame (tools_list names).
Proof. intros H. frames_differ H. Qed.

(** No stream holds a frame that answers a request whose [id] is a string,
    be it with a result or with an error. *)
Lemma no_answer_on_stream st c cn id :
  invariant st -> conns st !! c = Some cn -> is_Some (clientId cn) ->
  (forall result, sse_frame (response (VStr id) result) ∉ chunks (res cn)) /\
  (forall msg data, sse_frame (error_response (VStr id) msg data) ∉ chunks (res cn)).
Proof.
  intros Hinv Hc Hid. split.
  - intros r Hin.
    destruct (streaming_chunks _ _ _ _ Hinv Hc Hid Hin) as [H|[[names H]|[e H]]].
    + by apply response_not_initialized in H.
    + by apply response_not_tools_list in H.
    + by apply response_not_failure in H.
  - intros msg data Hin.
    destruct (streaming_chunks _ _ _ _ Hinv Hc Hid Hin) as [H|[[names H]|[e H]]].
    + by apply error_response_not_initialized in H.
    + by apply error_response_not_tools_list in H.
    + by apply error_response_not_failure in H.
Qed.

Lemma heartbeat_not_initialized iso :
  sse_frame (Simple.heartbeat iso) <> sse_frame initialized.
Proof. intros H. unfold Simple.heartbeat, Simple.notification in H. frames_differ H. Qed.

Lemma heartbeat_not_tools_list iso names :
  sse_frame (Simple.heartbeat iso) <> sse_frame (tools_list names).
Proof. intros H. unfold Simple.heartbeat, Simple.notification in H. frames_differ H. Qed.

Lemma heartbeat_not_failure iso e :
  sse_frame (Simple.heartbeat iso) <> sse_frame (failure e).
Proof. intros H. unfold Simple.heartbeat, Simple.notification in H. frames_differ H. Qed.

(** ** The claims *)

(** C1, as amended.  In the full server every frame the [/mcp] branch writes
    on a stream is the initialized notification, a [tools/list] notification
    or the error frame of a failed connection attempt.  The two
    notifications carry neither an [id] nor a [result]; the error frame
    carries no [result] and its [id] is [null].  So no stream ever holds a
    frame that answers a request, with a result or with an error, under the
    request's [id].  A request never causes a write on a stream that is
    already open (every request to [/mcp] opens a new stream, and no request
    body is read), and once the handler of a stream has run to its end no
    event makes the server write on that stream again. *)
Theorem full_stream_holds_no_response mods env evs c cn :
  conns (exec (init mods env) evs) !! c = Some cn ->
  is_Some (clientId cn) ->
  Forall (fun chunk =>
            chunk = sse_frame initialized \/
            (exists names, chunk = sse_frame (tools_list names)) \/
            (exists e, chunk = sse_frame (failure e)))
         (chunks (res cn)) /\
  (on_wire "id" initialized = false /\ on_wire "result" initialized = false) /\
  (forall names,
      on_wire "id" (tools_list names) = false /\
      on_wire "result" (tools_list names) = false) /\
  (forall e, get "id" (failure e) = VNull /\ on_wire "result" (failure e) = false) /\
  (forall id result, sse_frame (response (VStr id) result) ∉ chunks (res cn)) /\
  (forall id msg data, sse_frame (error_response (VStr id) msg data) ∉ chunks (res cn)) /\
  (forall req a, conns (step (exec (init mods env) evs) (Request req a)) !! c = Some cn) /\
  (pending cn = Done ->
   forall later,
   exists cn', conns (exec (exec (init mods env) evs) later) !! c = Some cn' /\
               chunks (res cn') = chunks (res cn)).
Proof.
  intros Hc Hid. pose proof (full_reach_invariant mods env evs) as Hinv.
  split_and!; try done.
  - apply Forall_forall. intros chunk Hin.
    exact (streaming_chunks _ _ _ _ Hinv Hc Hid Hin).
  - intros id. exact (proj1 (no_answer_on_stream _ c cn id Hinv Hc Hid)).
  - intros id. exact (proj2 (no_answer_on_stream _ c cn id Hinv Hc Hid)).
  - intros req a. destruct (full_request_frame (exec (init mods env) evs) req a) as (_ & _ & H).
    rewrite H; [exact Hc|]. apply (inv_fresh _ Hinv) in Hc. lia.
  - intros Hp later.
    destruct (full_finished_stays_exec later _ c cn Hinv Hc Hp) as (cn' & H1 & _ & H2 & _).
    by exists cn'.
Qed.

Lemma full_stream_holds_no_response_witness :
  exists cn,
    conns (exec (init loaded defaults) session_open) !! 0 = Some cn /\
    is_Some (clientId cn) /\
    pending cn = Done /\
    chunks (res cn) = [sse_frame initialized] /\
    (forall result, sse_frame (response (VStr "1") result) ∉ chunks (res cn)) /\
    exists cn',
      conns (exec (exec (init loaded defaults) session_open) request_delivery) !! 0
      = Some cn' /\
      chunks (res cn') = chunks (res cn).
Proof.
  destruct (conns (exec (init loaded defaults) session_open) !! 0)
    as [cn|] eqn:E; [|vm_compute in E; discriminate].
  exists cn.
  assert (Hfacts : is_Some (clientId cn) /\ pending cn = Done /\
                   chunks (res cn) = [sse_frame initialized]).
  { vm_compute in E. injection E as <-. split; [by eexists|done]. }
  destruct Hfacts as (Hid & Hp & Hch).
  destruct (full_stream_holds_no_response loaded defaults session_open 0 cn E Hid)
    as (_ & _ & _ & _ & H1 & _ & _ & H3).
  split_and!; try done. apply (H3 Hp request_delivery).
Defined.

(** C1, as stated, fails: with a session established on a registered
    connection, a request frame with the [id] [1] posted by the client is
    answered on no stream, neither with a result nor with an error, whatever
    happens afterwards. *)
Lemma full_request_never_answered :
  clients (exec (init loaded defaults) session_open) !! "client-1"
  = Some (mkClientEntry 0 engine true "2025-01-01T12:00:01.000Z") /\
  get "id" navigate = VStr "1" /\
  ~ (exists evs c cn frame,
        conns (exec (init loaded defaults) (session_open ++ request_delivery ++ evs)) !! c
        = Some cn /\
        is_Some (clientId cn) /\
        frame ∈ chunks (res cn) /\
        ((exists result, frame = sse_frame (response (VStr "1") result)) \/
         (exists msg data, frame = sse_frame (error_response (VStr "1") msg data)))).
Proof.
  split; [by vm_compute|]. split; [reflexivity|].
  intros (evs & c & cn & frame & H1 & H2 & H3 & H4).
  destruct (no_answer_on_stream _ c cn "1" (full_reach_invariant _ _ _) H1 H2) as [Hr He].
  destruct H4 as [[r ->]|(msg & data & ->)]; [exact (Hr r H3)|exact (He msg data H3)].
Qed.

(** C2, as amended.  When the session factory fails, the full server writes
    one error frame with [id] [null] and code -32603 on the stream (nothing
    if the transport is broken) and neither the initialized nor a
    [tools/list] notification; the handler ends without ending the response,
    without a session and without a [close] listener.  Nothing more is ever
    written on that stream, the registry gains no entry, and neither then nor
    later holds one for this connection, so [/health] does not count it. *)
Theorem full_failed_negotiation_contract mods env evs c cn id e now :
  conns (exec (init mods env) evs) !! c = Some cn ->
  pending cn = AwaitCreate ->
  clientId cn = Some id ->
  exists cn',
    conns (step (exec (init mods env) evs) (Created c (Throw e) now)) !! c = Some cn' /\
    chunks (res cn')
    = match broken (res cn) with Some _ => [] | None => [sse_frame (failure e)] end /\
    ended (res cn') = false /\
    pending cn' = Done /\ mcpServer cn' = None /\ closeListener cn' = false /\
    below (clients (step (exec (init mods env) evs) (Created c (Throw e) now)))
          (clients (exec (init mods env) evs)) /\
    forall later,
      (exists cn'',
         conns (exec (step (exec (init mods env) evs) (Created c (Throw e) now)) later) !! c
         = Some cn'' /\
         chunks (res cn'') = chunks (res cn')) /\
      forall k entry,
        clients (exec (step (exec (init mods env) evs) (Created c (Throw e) now)) later) !! k
        = Some entry ->
        entry_res entry <> c.
Proof.
  intros Hc Ha Hi. pose proof (full_reach_invariant mods env evs) as Hinv.
  set (st := exec (init mods env) evs) in *.
  pose proof (inv_conns _ Hinv c cn Hc) as Hok. unfold conn_ok in Hok.
  rewrite Hi, Ha in Hok. destruct Hok as (Hs & He & Hch & Hm & Hl).
  destruct cn as [r cid ms ph cl]; simpl in Ha, Hi, Hs, He, Hch, Hm, Hl. subst cid ms ph cl.
  pose proof (mcp_created_eval (modules st) c id (Throw e) now r (clients st) Hs) as Hev.
  simpl in Hev.
  assert (Hstep : step st (Created c (Throw e) now)
                  = run (mcp_created (modules st) c id (Throw e) now) c
                      (mkConn r (Some id) None Done false) st).
  { simpl. by rewrite Hc. }
  set (x := (mcp_created _ _ _ _ _ _).1) in *.
  assert (Hcn : conns (step st (Created c (Throw e) now)) !! c = Some (conn x)).
  { rewrite Hstep. simpl. apply lookup_insert_eq. }
  assert (Hfacts : chunks (res (conn x))
                   = match broken r with Some _ => [] | None => [sse_frame (failure e)] end /\
                   ended (res (conn x)) = false /\ pending (conn x) = Done /\
                   mcpServer (conn x) = None /\ closeListener (conn x) = false /\
                   below (connectedClients x) (clients st)).
  { destruct (broken r); destruct Hev as [-> Hb]; simpl; rewrite ?Hch; split_and!; try done.
    rewrite Hb. by intros ??. }
  destruct Hfacts as (F1 & F2 & F3 & F4 & F5 & F6).
  exists (conn x). split_and!; try done.
  - by rewrite Hstep.
  - intros later.
    pose proof (full_step_invariant st (Created c (Throw e) now) Hinv) as Hinv'.
    destruct (full_finished_stays_exec later _ c (conn x) Hinv' Hcn F3)
      as (cn2 & G1 & _ & G2 & _ & _ & G3 & _).
    split; [by exists cn2|].
    intros k entry Hk Hr.
    destruct (inv_clients _ (full_exec_invariant later _ Hinv') k entry Hk)
      as (cn3 & K1 & _ & K3).
    rewrite Hr, G1 in K1. injection K1 as <-. congruence.
Qed.

Lemma full_failed_negotiation_contract_witness :
  exists cn cn',
    conns (exec (init loaded defaults) [Request (mkReq "GET" "/mcp") (ambient "client-1")]) !! 0
    = Some cn /\
    pending cn = AwaitCreate /\
    clientId cn = Some "client-1" /\
    conns (exec (init loaded defaults) failed_negotiation) !! 0 = Some cn' /\
    chunks (res cn') = [sse_frame (failure no_browser)] /\
    pending cn' = Done.
Proof.
  destruct (conns (exec (init loaded defaults)
                     [Request (mkReq "GET" "/mcp") (ambient "client-1")]) !! 0)
    as [cn|] eqn:E; [|vm_compute in E; discriminate].
  assert (Hfacts : pending cn = AwaitCreate /\ clientId cn = Some "client-1" /\ broken (res cn) = None).
  { vm_compute in E. injection E as <-. done. }
  destruct Hfacts as (Ha & Hi & Hb).
  destruct (full_failed_negotiation_contract loaded defaults
              [Request (mkReq "GET" "/mcp") (ambient "client-1")] 0 cn "client-1"
              no_browser "2025-01-01T12:00:01.000Z" E Ha Hi)
    as (cn' & H1 & H2 & _ & H4 & _).
  rewrite Hb in H2. exists cn, cn'. by split_and!.
Defined.

(** C2, as stated, fails: after a failed negotiation the stream holds the
    error frame only, the connection is not in the registry and [/health]
    reports no client. *)
Lemma full_failed_negotiation_not_degraded :
  exists cn health,
    conns (exec (init loaded defaults) failed_negotiation) !! 0 = Some cn /\
    chunks (res cn) = [sse_frame (failure no_browser)] /\
    (sse_frame initialized ∉ chunks (res cn)) /\
    (forall names, sse_frame (tools_list names) ∉ chunks (res cn)) /\
    clients (exec (init loaded defaults) failed_negotiation) !! "client-1" = None /\
    answer (exec (init loaded defaults) failed_negotiation)
      (mkReq "GET" "/health") (ambient "probe") = Some health /\
    chunks (res health)
    = [shown (JSON_stringify
                (VObj [("status", VStr "healthy");
                       ("timestamp", VStr "2025-01-01T12:00:00.000Z");
                       ("service", VStr "playwright-mcp-server");
                       ("clients", VNum "0")]))].
Proof.
  eexists _, _. split; [by vm_compute|]. simpl.
  split_and!; try by vm_compute.
  - intros H. apply list_elem_of_singleton in H. frames_differ H.
  - intros names H. apply list_elem_of_singleton in H. frames_differ H.
Qed.

(** C3, as amended.  A [POST /execute] exchange ends with exactly one
    response.  When the body parses to a value other than [null] whose [tool]
    converts to a string, the response is 200 and its body is what
    [JSON.stringify] prints for the object with the members [tool] (the
    request's), [status] ([success]), [result] and [timestamp], and no
    other: the catalog is not consulted and nothing marks the result as
    simulated.  On the wire [status], [result] and [timestamp] are always
    there; [tool] echoes the request's, is left out when the request has
    none, and is [null] when the request's is a number that is not finite.
    When the body does not parse, or what it parses to makes the handler
    throw (as [null] does, and a [tool] object with an own [toString]
    member), the response is 400 with an error body. *)
Theorem simple_execute_contract st now iso0 pieces parsed iso :
  exists cn,
    Simple.conns (Simple.exec st (Simple.execute_exchange st now iso0 pieces parsed iso))
      !! Simple.next_id st = Some cn /\
    ended (Simple.res cn) = true /\
    (forall request text,
        parsed = Ok request -> request <> VNull -> request <> VUndefined ->
        to_string (get "tool" request) = Ok text ->
        statusCode (Simple.res cn) = Some 200 /\
        chunks (Simple.res cn)
        = [shown (JSON_stringify
                    (VObj [("tool", get "tool" request);
                           ("status", VStr "success");
                           ("result",
                            VStr ("Executed " ++ text ++ " with params: "
                                    ++ shown (JSON_stringify (get "params" request))));
                           ("timestamp", VStr iso)]))]) /\
    (forall request,
        parsed = Ok request -> request <> VNull -> request <> VUndefined ->
        get "tool" request = VUndefined ->
        statusCode (Simple.res cn) = Some 200 /\
        chunks (Simple.res cn)
        = [shown (JSON_stringify
                    (VObj [("status", VStr "success");
                           ("result",
                            VStr ("Executed undefined with params: "
                                    ++ shown (JSON_stringify (get "params" request))));
                           ("timestamp", VStr iso)]))]) /\
    (forall request negative,
        parsed = Ok request -> get "tool" request = VInfinity negative ->
        statusCode (Simple.res cn) = Some 200 /\
        chunks (Simple.res cn)
        = [shown (JSON_stringify
                    (VObj [("tool", VNull);
                           ("status", VStr "success");
                           ("result",
                            VStr ("Executed "
                                    ++ (if negative then "-Infinity" else "Infinity")
                                    ++ " with params: "
                                    ++ shown (JSON_stringify (get "params" request))));
                           ("timestamp", VStr iso)]))]) /\
    (forall e,
        parsed = Throw e \/ (exists request, parsed = Ok request /\ Simple.execution request iso = Throw e) ->
        statusCode (Simple.res cn) = Some 400 /\
        chunks (Simple.res cn) = [shown (JSON_stringify (Simple.rejection_body e))]) /\
    (parsed = Ok VNull -> statusCode (Simple.res cn) = Some 400) /\
    (forall request fields,
        parsed = Ok request -> get "tool" request = VObj fields ->
        is_Some (assoc "toString" fields) ->
        statusCode (Simple.res cn) = Some 400).
Proof.
  destruct (simple_execute_answer st now iso0 pieces parsed iso) as (cn & Hc & Hen & Hans).
  exists cn. split; [exact Hc|]. split; [exact Hen|].
  assert (Hok : forall request text,
            parsed = Ok request -> request <> VNull -> request <> VUndefined ->
            to_string (get "tool" request) = Ok text ->
            statusCode (Simple.res cn) = Some 200 /\
            chunks (Simple.res cn)
            = [shown (JSON_stringify
                        (VObj [("tool", get "tool" request);
                               ("status", VStr "success");
                               ("result",
                                VStr ("Executed " ++ text ++ " with params: "
                                        ++ shown (JSON_stringify (get "params" request))));
                               ("timestamp", VStr iso)]))]).
  { intros request text -> Hn Hu Ht.
    by rewrite (execution_ok _ _ _ Hn Hu Ht) in Hans. }
  split_and!.
  - exact Hok.
  - intros request Hp Hn Hu Ht.
    destruct (Hok request "undefined" Hp Hn Hu) as [H1 H2]; [by rewrite Ht|].
    split; [exact H1|]. rewrite H2, Ht. reflexivity.
  - intros request negative Hp Ht.
    destruct (Hok request (if negative then "-Infinity" else "Infinity") Hp) as [H1 H2].
    + intros ->. discriminate.
    + intros ->. discriminate.
    + by rewrite Ht.
    + split; [exact H1|]. rewrite H2, Ht. reflexivity.
  - intros e [->|(request & -> & He)]; [exact Hans|]. by rewrite He in Hans.
  - intros ->. exact (proj1 Hans).
  - intros request fields -> Ht [v Hv].
    assert (He : exists e, Simple.execution request iso = Throw e).
    { unfold Simple.execution.
      assert (Hp : prop "tool" request = Ok (get "tool" request)).
      { destruct request; try done; discriminate. }
      rewrite Hp. simpl. rewrite Ht. simpl. rewrite Hv. by eexists. }
    destruct He as [e He]. rewrite He in Hans. exact (proj1 Hans).
Qed.

Lemma simple_execute_contract_witness :
  (exists cn,
     Simple.conns
       (Simple.exec Simple.init
          (Simple.execute_exchange Simple.init 0 Simple.noon []
             (Ok Simple.unknown_tool_call) Simple.noon)) !! 0 = Some cn /\
     statusCode (Simple.res cn) = Some 200 /\
     chunks (Simple.res cn)
     = [shown (JSON_stringify
                 (VObj [("tool", VStr "no_such_tool");
                        ("status", VStr "success");
                        ("result",
                         VStr ("Executed no_such_tool with params: "
                                 ++ shown (JSON_stringify (VObj [("depth", VNum "3")]))));
                        ("timestamp", VStr Simple.noon)]))]) /\
  (exists cn,
     Simple.conns
       (Simple.exec Simple.init
          (Simple.execute_exchange Simple.init 0 Simple.noon []
             (Ok (VObj [("tool", VInfinity false)])) Simple.noon)) !! 0 = Some cn /\
     statusCode (Simple.res cn) = Some 200 /\
     chunks (Simple.res cn)
     = [shown (JSON_stringify
                 (VObj [("tool", VNull);
                        ("status", VStr "success");
                        ("result", VStr "Executed Infinity with params: undefined");
                        ("timestamp", VStr Simple.noon)]))]) /\
  (exists cn,
     Simple.conns
       (Simple.exec Simple.init
          (Simple.execute_exchange Simple.init 0 Simple.noon []
             (Ok (VObj [])) Simple.noon)) !! 0 = Some cn /\
     statusCode (Simple.res cn) = Some 200 /\
     chunks (Simple.res cn)
     = [shown (JSON_stringify
                 (VObj [("status", VStr "success");
                        ("result", VStr "Executed undefined with params: undefined");
                        ("timestamp", VStr Simple.noon)]))]).
Proof.
  split_and!.
  - destruct (simple_execute_contract Simple.init 0%N Simple.noon []
                (Ok Simple.unknown_tool_call) Simple.noon) as (cn & H1 & _ & H2 & _).
    destruct (H2 Simple.unknown_tool_call "no_such_tool" eq_refl) as [H3 H4];
      [discriminate|discriminate|reflexivity|].
    exists cn. by split_and!.
  - destruct (simple_execute_contract Simple.init 0%N Simple.noon []
                (Ok (VObj [("tool", VInfinity false)])) Simple.noon)
      as (cn & H1 & _ & _ & _ & H2 & _).
    destruct (H2 (VObj [("tool", VInfinity false)]) false eq_refl eq_refl) as [H3 H4].
    exists cn. by split_and!.
  - destruct (simple_execute_contract Simple.init 0%N Simple.noon []
                (Ok (VObj [])) Simple.noon) as (cn & H1 & _ & _ & H2 & _).
    destruct (H2 (VObj []) eq_refl) as [H3 H4]; [discriminate|discriminate|reflexivity|].
    exists cn. by split_and!.
Defined.

(** C3, as stated, fails: the body [null] parses as JSON and is answered
    with 400. *)
Lemma simple_execute_null_rejected :
  exists cn,
    Simple.conns (Simple.exec Simple.init Simple.null_exchange) !! 0 = Some cn /\
    statusCode (Simple.res cn) = Some 400 /\
    chunks (Simple.res cn)
    = [shown (JSON_stringify
                (Simple.rejection_body
                   (Exn "Cannot read properties of null (reading 'tool')" EmptyString)))].
Proof. eexists. split_and!; by vm_compute. Qed.

(** C4, as amended.  On the simple server an accepted stream starts with the
    initialized notification, then the server information, then the
    [tools/list] notification carrying the catalog.  On the full server the
    stream of an accepted connection (one whose handler reached its [close]
    listener) starts with the initialized notification, followed by at most
    one [tools/list] notification; on any stream a [tools/list] notification
    comes after the initialized notification, which is the first frame.  The
    handler writes that [tools/list] notification with an empty list when the
    SDK transport or [mcpServer.server] is missing, with the names of the
    tool handlers (or an empty list) when the standard connection fails, and
    not at all when the standard connection succeeds.  On both servers an
    event only appends to the stream of a connection, so frames keep their
    write order. *)
Theorem initialized_precedes_tools_list :
  (forall evs req now iso,
      method req <> "OPTIONS" -> url req = "/mcp" ->
      exists cn,
        Simple.answer (Simple.exec Simple.init evs) req now iso = Some cn /\
        chunks (Simple.res cn)
        = [sse_frame Simple.initMessage;
           sse_frame (Simple.serverInfo Simple.PLAYWRIGHT_TOOLS);
           sse_frame (Simple.toolsList Simple.PLAYWRIGHT_TOOLS)]) /\
  (forall mods env evs c cn,
      conns (exec (init mods env) evs) !! c = Some cn ->
      closeListener cn = true ->
      chunks (res cn) = [sse_frame initialized] \/
      exists names,
        chunks (res cn) = [sse_frame initialized; sse_frame (tools_list names)]) /\
  (forall mods env evs c cn i params,
      conns (exec (init mods env) evs) !! c = Some cn ->
      is_Some (clientId cn) ->
      chunks (res cn) !! i = Some (sse_frame (notification "tools/list" params)) ->
      0 < i /\ chunks (res cn) !! 0 = Some (sse_frame initialized)) /\
  (forall mods env evs c cn id m now,
      conns (exec (init mods env) evs) !! c = Some cn ->
      pending cn = AwaitCreate -> clientId cn = Some id -> broken (res cn) = None ->
      exists cn',
        conns (step (exec (init mods env) evs) (Created c (Ok m) now)) !! c = Some cn' /\
        if SSEServerTransport mods && bool_decide (is_Some (server m))
        then chunks (res cn') = [sse_frame initialized] /\ pending cn' = AwaitConnect
        else chunks (res cn') = [sse_frame initialized; sse_frame (tools_list [])] /\
             closeListener cn' = true) /\
  (forall mods env evs c cn id m outcome,
      conns (exec (init mods env) evs) !! c = Some cn ->
      pending cn = AwaitConnect -> clientId cn = Some id -> mcpServer cn = Some m ->
      broken (res cn) = None ->
      exists cn',
        conns (step (exec (init mods env) evs) (Connected c outcome)) !! c = Some cn' /\
        closeListener cn' = true /\
        chunks (res cn')
        = match outcome with
          | Ok _ => [sse_frame initialized]
          | Throw _ =>
              [sse_frame initialized;
               sse_frame (tools_list match handler_keys m with
                                     | Ok names => names
                                     | Throw _ => []
                                     end)]
          end) /\
  (forall evs ev c cn,
      Simple.conns (Simple.exec Simple.init evs) !! c = Some cn ->
      exists cn',
        Simple.conns (Simple.step (Simple.exec Simple.init evs) ev) !! c = Some cn' /\
        grows Simple.res cn cn') /\
  (forall mods env evs ev c cn,
      conns (exec (init mods env) evs) !! c = Some cn ->
      exists cn',
        conns (step (exec (init mods env) evs) ev) !! c = Some cn' /\
        grows res cn cn').
Proof.
  split_and!.
  - intros evs req now iso Hm Hu.
    rewrite (simple_mcp_answer _ req now iso Hm Hu), simple_exec_tools.
    eexists. by split.
  - intros mods env evs c cn Hc Hl.
    pose proof (inv_conns _ (full_reach_invariant mods env evs) c cn Hc) as Hok.
    assert (Hid : is_Some (clientId cn)).
    { unfold conn_ok in Hok. destruct (clientId cn); [by eexists|].
      destruct Hok as (_ & _ & Hok). congruence. }
    pose proof (conn_ok_log cn Hok Hid) as Hlog.
    destruct Hlog as [|e|l|names]; try discriminate; eauto.
  - intros mods env evs c cn i params Hc Hid Hi.
    pose proof (conn_ok_log cn (inv_conns _ (full_reach_invariant mods env evs) c cn Hc) Hid)
      as Hlog.
    destruct Hlog as [|e|l|names].
    + by rewrite lookup_nil in Hi.
    + apply lookup_one in Hi as [_ Hi]. symmetry in Hi.
      by apply tools_list_not_failure in Hi.
    + apply lookup_one in Hi as [_ Hi]. symmetry in Hi.
      by apply tools_list_not_initialized in Hi.
    + apply lookup_two in Hi as [[_ Hi]|[-> _]].
      * symmetry in Hi. by apply tools_list_not_initialized in Hi.
      * split; [lia|done].
  - intros mods env evs c cn id m now Hc Ha Hi Hb.
    destruct (full_created_stream _ c cn id m now (full_reach_invariant mods env evs)
                Hc Ha Hi Hb) as (cn' & H1 & _ & H2).
    exists cn'. split; [exact H1|].
    rewrite full_exec_modules in H2. simpl in H2.
    destruct (SSEServerTransport mods && bool_decide (is_Some (server m)));
      destruct H2 as (H2 & H3 & H4); by split.
  - intros mods env evs c cn id m outcome Hc Ha Hi Hm Hb.
    destruct (full_connected_stream _ c cn id m outcome (full_reach_invariant mods env evs)
                Hc Ha Hi Hm Hb) as (cn' & H1 & _ & H2 & H3).
    by exists cn'.
  - intros evs ev c cn Hc. by apply simple_step_grows; [apply simple_reach_fresh|].
  - intros mods env evs ev c cn Hc.
    destruct (full_step_continues _ ev c cn (full_reach_invariant mods env evs) Hc)
      as (cn' & H1 & H2 & _). by exists cn'.
Qed.

Lemma initialized_precedes_tools_list_witness :
  exists cn,
    conns (exec (init (mkModules true false) defaults)
             [Request (mkReq "GET" "/mcp") (ambient "client-1");
              Created 0 (Ok engine) "2025-01-01T12:00:01.000Z"]) !! 0 = Some cn /\
    is_Some (clientId cn) /\
    chunks (res cn) !! 1 = Some (sse_frame (notification "tools/list" empty_tools)) /\
    chunks (res cn) !! 0 = Some (sse_frame initialized).
Proof.
  destruct (conns (exec (init (mkModules true false) defaults)
             [Request (mkReq "GET" "/mcp") (ambient "client-1");
              Created 0 (Ok engine) "2025-01-01T12:00:01.000Z"]) !! 0)
    as [cn|] eqn:E; [|vm_compute in E; discriminate].
  assert (Hfacts : is_Some (clientId cn) /\
            chunks (res cn) !! 1 = Some (sse_frame (notification "tools/list" empty_tools))).
  { vm_compute in E. injection E as <-. split; [by eexists|by vm_compute]. }
  destruct Hfacts as [Hid H1]. exists cn. split_and!; try done.
  destruct initialized_precedes_tools_list as (_ & _ & H & _).
  exact (proj2 (H _ _ _ 0 cn 1 empty_tools E Hid H1)).
Defined.

(** C4, as stated, fails on the full server: once the session is created and
    the standard connection has succeeded, the handler has written the
    initialized notification and no [tools/list] notification; without the SDK
    transport the [tools/list] notification it writes carries an empty
    list. *)
Lemma full_connected_stream_lacks_tools_list :
  (exists cn,
     conns (exec (init loaded defaults) session_open) !! 0 = Some cn /\
     pending cn = Done /\ closeListener cn = true /\
     chunks (res cn) = [sse_frame initialized] /\
     forall params, sse_frame (notification "tools/list" params) ∉ chunks (res cn)) /\
  (exists cn,
     conns (exec (init (mkModules true false) defaults)
              [Request (mkReq "GET" "/mcp") (ambient "client-1");
               Created 0 (Ok engine) "2025-01-01T12:00:01.000Z"]) !! 0 = Some cn /\
     chunks (res cn)
     = [sse_frame initialized;
        sse_frame (notification "tools/list" (VObj [("tools", VArr [])]))]).
Proof.
  split.
  - eexists. split; [by vm_compute|]. simpl. split_and!; try by vm_compute.
    intros params H. apply list_elem_of_singleton in H. frames_differ H.
  - eexists. split; by vm_compute.
Qed.

(** C5, as amended.  On the simple server every accepted stream gets its own
    timer with a period of 30000 ms; each firing writes one heartbeat
    notification to that stream and to no other, and is due again one period
    later; a firing whose write fails only clears that timer: the response is
    not ended, nothing else is released, and a cleared timer fires no more.
    The full server sets no timer and writes no heartbeat. *)
Theorem simple_heartbeat_contract :
  (forall st req now iso,
      method req <> "OPTIONS" -> url req = "/mcp" ->
      exists cn,
        Simple.answer st req now iso = Some cn /\
        ended (Simple.res cn) = false /\
        Simple.heartbeatInterval cn = Some (Simple.mkTimer 30000 (now + 30000) true)) /\
  (forall st c cn t iso,
      Simple.conns st !! c = Some cn ->
      Simple.heartbeatInterval cn = Some t ->
      Simple.active t = true ->
      (forall c', c' <> c ->
         Simple.conns (Simple.step st (Simple.Tick c iso)) !! c' = Simple.conns st !! c') /\
      exists cn',
        Simple.conns (Simple.step st (Simple.Tick c iso)) !! c = Some cn' /\
        ended (Simple.res cn') = ended (Simple.res cn) /\
        Simple.body cn' = Simple.body cn /\
        match broken (Simple.res cn) with
        | None =>
            chunks (Simple.res cn')
            = (chunks (Simple.res cn) ++ [sse_frame (Simple.heartbeat iso)])%list /\
            Simple.heartbeatInterval cn'
            = Some (Simple.mkTimer (Simple.period t) (Simple.due t + Simple.period t) true)
        | Some _ =>
            Simple.res cn' = Simple.res cn /\
            Simple.heartbeatInterval cn'
            = Some (Simple.mkTimer (Simple.period t) (Simple.due t + Simple.period t) false)
        end) /\
  (forall st c cn t iso,
      Simple.conns st !! c = Some cn ->
      Simple.heartbeatInterval cn = Some t ->
      Simple.active t = false ->
      Simple.step st (Simple.Tick c iso) = st) /\
  (forall mods env evs c cn iso,
      conns (exec (init mods env) evs) !! c = Some cn ->
      is_Some (clientId cn) ->
      sse_frame (Simple.heartbeat iso) ∉ chunks (res cn)).
Proof.
  split_and!.
  - intros st req now iso Hm Hu. rewrite (simple_mcp_answer st req now iso Hm Hu).
    eexists. by split_and!.
  - intros st c cn t iso Hc Ht Ha. rewrite (simple_tick st c cn t iso Hc Ht Ha). split.
    + intros c' Hne. simpl. by rewrite lookup_insert_ne.
    + eexists. split; [simpl; apply lookup_insert_eq|].
      destruct (broken (Simple.res cn)); by split_and!.
  - intros st c cn t iso Hc Ht Ha. simpl. by rewrite Hc, Ht, Ha.
  - intros mods env evs c cn iso Hc Hid Hin.
    destruct (streaming_chunks _ _ _ _ (full_reach_invariant mods env evs) Hc Hid Hin)
      as [H|[[names H]|[e H]]].
    + by apply heartbeat_not_initialized in H.
    + by apply heartbeat_not_tools_list in H.
    + by apply heartbeat_not_failure in H.
Qed.

Lemma simple_heartbeat_contract_witness :
  exists cn cn',
    Simple.conns (Simple.exec Simple.init Simple.stream_opened) !! 0 = Some cn /\
    Simple.heartbeatInterval cn = Some (Simple.mkTimer 30000 30000 true) /\
    Simple.conns (Simple.step (Simple.exec Simple.init Simple.stream_opened)
                    (Simple.Tick 0 Simple.noon)) !! 0 = Some cn' /\
    chunks (Simple.res cn')
    = (chunks (Simple.res cn) ++ [sse_frame (Simple.heartbeat Simple.noon)])%list /\
    Simple.heartbeatInterval cn' = Some (Simple.mkTimer 30000 60000 true).
Proof.
  destruct (Simple.conns (Simple.exec Simple.init Simple.stream_opened) !! 0)
    as [cn|] eqn:E; [|vm_compute in E; discriminate].
  assert (Hfacts : Simple.heartbeatInterval cn = Some (Simple.mkTimer 30000 30000 true) /\
                   broken (Simple.res cn) = None).
  { vm_compute in E. injection E as <-. done. }
  destruct Hfacts as [Ht Hb].
  destruct simple_heartbeat_contract as (_ & H & _).
  destruct (H (Simple.exec Simple.init Simple.stream_opened) 0 cn _ Simple.noon E Ht eq_refl)
    as (_ & cn' & H1 & _ & _ & H2).
  rewrite Hb in H2. destruct H2 as [H2 H3].
  exists cn, cn'. by split_and!.
Defined.

(** C5, as stated, fails: after a heartbeat whose write failed the timer is
    cleared, and that is all: the response is not ended and the connection is
    otherwise as it was. *)
Lemma simple_heartbeat_failure_only_stops_timer :
  exists cn cn',
    Simple.conns (Simple.exec Simple.init
                    (Simple.stream_opened ++ [Simple.Break 0 (Exn "write EPIPE" EmptyString)]))
      !! 0 = Some cn /\
    Simple.conns (Simple.exec Simple.init Simple.heartbeat_fails) !! 0 = Some cn' /\
    Simple.res cn' = Simple.res cn /\
    ended (Simple.res cn') = false /\
    Simple.heartbeatInterval cn' = Some (Simple.mkTimer 30000 60000 false).
Proof. eexists _, _. split_and!; by vm_compute. Qed.

(** C6, as amended.  [/health] answers 200 with the status [healthy] and a
    timestamp on both servers; the full server adds the size of its registry
    as [clients], the simple server, which keeps no registry, adds the number
    of catalog tools as [tools] and no client count. *)
Theorem health_reports :
  (forall st req a,
      method req <> "OPTIONS" -> url req = "/health" ->
      exists cn,
        answer st req a = Some cn /\
        statusCode (res cn) = Some 200 /\ ended (res cn) = true /\
        chunks (res cn)
        = [shown (JSON_stringify
                    (VObj [("status", VStr "healthy");
                           ("timestamp", VStr (iso a));
                           ("service", VStr "playwright-mcp-server");
                           ("clients", VNum (pretty (size (clients st))))]))]) /\
  (forall st req now iso,
      method req <> "OPTIONS" -> url req = "/health" ->
      exists cn,
        Simple.answer st req now iso = Some cn /\
        statusCode (Simple.res cn) = Some 200 /\ ended (Simple.res cn) = true /\
        chunks (Simple.res cn)
        = [shown (JSON_stringify
                    (VObj [("status", VStr "healthy");
                           ("timestamp", VStr iso);
                           ("service", VStr "simple-mcp-server");
                           ("tools", VNum (pretty (List.length (Simple.tools st))))]))]).
Proof.
  split.
  - intros st req a Hm Hu. destruct (full_health_answer st req a Hm Hu) as [-> _].
    eexists. by split_and!.
  - intros st req now iso Hm Hu. rewrite (simple_health_answer st req now iso Hm Hu).
    eexists. by split_and!.
Qed.

Lemma health_reports_witness :
  exists full simple,
    answer (exec (init loaded defaults) session_open) (mkReq "GET" "/health") (ambient "probe")
    = Some full /\
    chunks (res full)
    = [shown (JSON_stringify
                (VObj [("status", VStr "healthy");
                       ("timestamp", VStr "2025-01-01T12:00:00.000Z");
                       ("service", VStr "playwright-mcp-server");
                       ("clients", VNum "1")]))] /\
    Simple.answer Simple.init (mkReq "GET" "/health") 0 Simple.noon = Some simple /\
    chunks (Simple.res simple)
    = [shown (JSON_stringify
                (VObj [("status", VStr "healthy");
                       ("timestamp", VStr Simple.noon);
                       ("service", VStr "simple-mcp-server");
                       ("tools", VNum "4")]))].
Proof.
  destruct health_reports as [Hfull Hsimple].
  destruct (Hfull (exec (init loaded defaults) session_open) (mkReq "GET" "/health")
              (ambient "probe")) as (full & F1 & _ & _ & F2); [done|done|].
  destruct (Hsimple Simple.init (mkReq "GET" "/health") 0%N Simple.noon)
    as (simple & S1 & _ & _ & S2); [done|done|].
  exists full, simple. split_and!; [exact F1| |exact S1|exact S2].
  rewrite F2. by vm_compute.
Defined.

(** C6, as stated, fails on the simple server: its [/health] body has no
    client count. *)
Lemma simple_health_lacks_client_count :
  exists cn,
    Simple.answer Simple.init (mkReq "GET" "/health") 0 Simple.noon = Some cn /\
    chunks (Simple.res cn)
    = [shown (JSON_stringify (Simple.health_body Simple.PLAYWRIGHT_TOOLS Simple.noon))] /\
    Simple.health_body Simple.PLAYWRIGHT_TOOLS Simple.noon
    = VObj [("status", VStr "healthy");
            ("timestamp", VStr Simple.noon);
            ("service", VStr "simple-mcp-server");
            ("tools", VNum "4")] /\
    on_wire "clients" (Simple.health_body Simple.PLAYWRIGHT_TOOLS Simple.noon) = false.
Proof. eexists. split_and!; by vm_compute. Qed.




(** C8.  The catalog names are pairwise distinct; no event changes the
    catalog; and after any events [/tools] answers with the catalog in its
    declaration order. *)
Theorem catalog_unique_ordered_stable :
  NoDup (Simple.names Simple.PLAYWRIGHT_TOOLS) /\
  Simple.names Simple.PLAYWRIGHT_TOOLS
  = [VStr "browser_navigate"; VStr "page_screenshot"; VStr "element_click";
     VStr "page_content"] /\
  (forall evs, Simple.tools (Simple.exec Simple.init evs) = Simple.PLAYWRIGHT_TOOLS) /\
  (forall evs now iso,
      exists cn,
        Simple.answer (Simple.exec Simple.init evs) (mkReq "GET" "/tools") now iso = Some cn /\
        statusCode (Simple.res cn) = Some 200 /\
        ended (Simple.res cn) = true /\
        chunks (Simple.res cn)
        = [shown (JSON_stringify (VObj [("tools", VArr Simple.PLAYWRIGHT_TOOLS)]))]).
Proof.
  split_and!.
  - change (NoDup (VStr <$> ["browser_navigate"; "page_screenshot"; "element_click";
                             "page_content"])).
    apply NoDup_fmap_2; [by intros ?? [= ->]|].
    apply (bool_decide_unpack _). by vm_compute.
  - reflexivity.
  - intros evs. apply simple_exec_tools.
  - intros evs now iso.
    rewrite (simple_tools_answer _ (mkReq "GET" "/tools") now iso); [|done|done].
    rewrite simple_exec_tools. eexists. by split_and!.
Qed.

(** C9.  Serving [/health], [/info] or [/] changes nothing but the response
    object of that request: on the full server the registry, the loaded
    modules, the configuration and every other connection (with its session)
    are as before; on the simple server the catalog and every other
    connection (with its timer) are as before. *)
Theorem health_info_read_only :
  (forall st req a,
      url req = "/health" \/ url req = "/info" \/ url req = "/" ->
      clients (step st (Request req a)) = clients st /\
      modules (step st (Request req a)) = modules st /\
      environment (step st (Request req a)) = environment st /\
      forall c, c <> next_id st -> conns (step st (Request req a)) !! c = conns st !! c) /\
  (forall st req now iso,
      url req = "/health" \/ url req = "/info" \/ url req = "/" ->
      Simple.tools (Simple.step st (Simple.Request req now iso)) = Simple.tools st /\
      forall c, c <> Simple.next_id st ->
        Simple.conns (Simple.step st (Simple.Request req now iso)) !! c
        = Simple.conns st !! c).
Proof.
  split.
  - intros st req a Hu. split; [by apply full_read_only|apply full_request_frame].
  - intros st req now iso _. apply simple_request_frame.
Qed.

Lemma health_info_read_only_witness :
  clients (step (exec (init loaded defaults) session_open)
             (Request (mkReq "GET" "/info") (ambient "probe")))
  = clients (exec (init loaded defaults) session_open) /\
  Simple.tools (Simple.step Simple.init (Simple.Request (mkReq "GET" "/health") 0 Simple.noon))
  = Simple.tools Simple.init.
Proof.
  destruct health_info_read_only as [Hfull Hsimple]. split.
  - apply (Hfull (exec (init loaded defaults) session_open) (mkReq "GET" "/info")
             (ambient "probe")). right; left; reflexivity.
  - apply (Hsimple Simple.init (mkReq "GET" "/health") 0%N Simple.noon). left; reflexivity.
Defined.

(** C10: the code at the failing input.  The client goes away while the
    session is still being created; the [close] listener is attached only
    after the two awaits, so the entry inserted afterwards stays in the
    registry and [/health] counts a connection that is closed.  The same
    events with the close last leave the registry empty. *)
Lemma full_early_close_leaves_entry :
  (exists health,
     clients (exec (init loaded defaults) early_close) !! "client-1"
     = Some (mkClientEntry 0 engine true "2025-01-01T12:00:01.000Z") /\
     answer (exec (init loaded defaults) early_close)
       (mkReq "GET" "/health") (ambient "probe") = Some health /\
     chunks (res health)
     = [shown (JSON_stringify
                 (VObj [("status", VStr "healthy");
                        ("timestamp", VStr "2025-01-01T12:00:00.000Z");
                        ("service", VStr "playwright-mcp-server");
                        ("clients", VNum "1")]))]) /\
  clients (exec (init loaded defaults) late_close) !! "client-1" = None.
Proof. split; [eexists; split_and!|]; by vm_compute. Qed.

(** ** Further properties *)

(** *** One event, one line *)

Lemma one_line_app a b : one_line (a ++ b) = one_line a && one_line b.
Proof.
  induction a as [|c a IH]; simpl; [reflexivity|].
  rewrite IH. by rewrite andb_assoc.
Qed.

Lemma escape_char_one_line c : one_line (escape_char c) = true.
Proof. destruct c as [[] [] [] [] [] [] [] []]; reflexivity. Qed.

Lemma escape_one_line s : one_line (escape s) = true.
Proof.
  induction s as [|c s IH]; simpl; [reflexivity|].
  by rewrite one_line_app, escape_char_one_line, IH.
Qed.

Lemma quote_one_line s : one_line (quote s) = true.
Proof.
  unfold quote. change (String dquote ?r) with (String dquote EmptyString ++ r).
  by rewrite !one_line_app, escape_one_line.
Qed.

Lemma join_one_line parts :
  Forall (fun p => one_line p = true) parts -> one_line (join "," parts) = true.
Proof.
  induction 1 as [|p parts Hp Hps IH]; [reflexivity|].
  destruct parts as [|q parts]; [exact Hp|].
  change (join "," (p :: q :: parts)) with (p ++ "," ++ join "," (q :: parts)).
  by rewrite !one_line_app, Hp, IH.
Qed.

Lemma stringify_one_line :
  forall v s, printable v = true -> JSON_stringify v = Some s -> one_line s = true.
Proof.
  fix IH 1. intros [ | |b|r| |negative|s0|items|fields] s Hp Hs; simpl in Hp, Hs.
  - discriminate.
  - by injection Hs as <-.
  - injection Hs as <-. by destruct b.
  - by injection Hs as <-.
  - by injection Hs as <-.
  - by injection Hs as <-.
  - injection Hs as <-. apply quote_one_line.
  - injection Hs as <-. rewrite !one_line_app. simpl. rewrite andb_true_r.
    apply join_one_line.
    induction items as [|x items IHitems]; simpl; [constructor|].
    simpl in Hp. apply andb_prop in Hp as [Hx Hitems].
    constructor; [|by apply IHitems].
    destruct (JSON_stringify x) as [sx|] eqn:E; simpl; [by apply (IH x)|reflexivity].
  - injection Hs as <-. rewrite !one_line_app. simpl. rewrite andb_true_r.
    apply join_one_line.
    induction fields as [|[k x] fields IHfields]; simpl; [constructor|].
    simpl in Hp. apply andb_prop in Hp as [Hx Hfields].
    destruct (JSON_stringify x) as [sx|] eqn:E; [|by apply IHfields].
    constructor; [|by apply IHfields].
    by rewrite !one_line_app, quote_one_line, (IH x sx Hx E).
Qed.

(** X1.  A frame is one event of the stream: the payload after [data: ] holds no
    line break, whatever strings the message carries, and is followed by the
    blank line that ends the event. *)
Theorem sse_frame_one_event msg :
  printable msg = true ->
  exists payload,
    sse_frame msg = "data: " ++ payload ++ nl ++ nl /\
    payload = shown (JSON_stringify msg) /\
    one_line payload = true.
Proof.
  intros Hp. exists (shown (JSON_stringify msg)). split_and!; [reflexivity..|].
  destruct (JSON_stringify msg) as [s|] eqn:E; [|reflexivity].
  by apply (stringify_one_line msg).
Qed.

Lemma sse_frame_one_event_witness :
  printable (failure (Exn ("boom" ++ nl ++ "again") ("Error: boom" ++ nl ++ "    at launch")))
  = true /\
  exists payload,
    sse_frame (failure (Exn ("boom" ++ nl ++ "again") ("Error: boom" ++ nl ++ "    at launch")))
    = "data: " ++ payload ++ nl ++ nl /\
    one_line payload = true.
Proof.
  split; [reflexivity|].
  destruct (sse_frame_one_event
              (failure (Exn ("boom" ++ nl ++ "again") ("Error: boom" ++ nl ++ "    at launch")))
              eq_refl) as (payload & H1 & _ & H2).
  by exists payload.
Defined.

(** *** The simple server: routes *)

(** X2.  A preflight request is answered 200 with no body and ended, whatever
    its URL: it opens no stream, starts no timer and waits for no body. *)
Theorem simple_options_preflight st req now iso :
  method req = "OPTIONS" ->
  Simple.answer st req now iso
  = Some (Simple.mkConn
            (mkRes true (Some 200) (headers (cors fresh_res)) [] true None) None None).
Proof.
  intros Hm. unfold Simple.answer. simpl. rewrite lookup_insert_eq.
  unfold Simple.on_request. destruct req as [m u]; simpl in *. subst m. reflexivity.
Qed.

Lemma simple_options_preflight_witness :
  exists cn,
    Simple.answer Simple.init (mkReq "OPTIONS" "/mcp") 0 Simple.noon = Some cn /\
    ended (Simple.res cn) = true /\ chunks (Simple.res cn) = [] /\
    Simple.heartbeatInterval cn = None.
Proof.
  rewrite (simple_options_preflight Simple.init (mkReq "OPTIONS" "/mcp") 0%N Simple.noon eq_refl).
  eexists. by split_and!.
Defined.

(** X3.  The simple server answers every URL it does not serve with 404 and
    the body [{error: 'Not found'}]; [/execute] is such a URL for every
    method but POST. *)
Theorem simple_not_found st req now iso :
  method req <> "OPTIONS" ->
  url req <> "/health" -> url req <> "/tools" -> url req <> "/mcp-simple" ->
  url req <> "/mcp" -> url req <> "/" -> url req <> "/info" ->
  (url req = "/execute" -> method req <> "POST") ->
  Simple.answer st req now iso
  = Some (Simple.mkConn
            (mkRes true (Some 404) (with_headers json_headers (headers (cors fresh_res)))
               [shown (JSON_stringify (VObj [("error", VStr "Not found")]))] true None)
            None None).
Proof.
  intros Hm H1 H2 H3 H4 H5 H6 H7. unfold Simple.answer. simpl. rewrite lookup_insert_eq.
  unfold Simple.on_request. destruct req as [m u]; simpl in *.
  rewrite (eqb_false_of_ne _ _ Hm), (eqb_false_of_ne _ _ H1), (eqb_false_of_ne _ _ H2),
    (eqb_false_of_ne _ _ H3), (eqb_false_of_ne _ _ H4), (eqb_false_of_ne _ _ H5),
    (eqb_false_of_ne _ _ H6).
  destruct (String.eqb m "POST") eqn:E1, (String.eqb u "/execute") eqn:E2;
    simpl; try reflexivity.
  apply String.eqb_eq in E1, E2. by destruct (H7 E2).
Qed.

Lemma simple_not_found_witness :
  exists cn,
    Simple.answer Simple.init (mkReq "GET" "/execute") 0 Simple.noon = Some cn /\
    statusCode (Simple.res cn) = Some 404 /\ ended (Simple.res cn) = true.
Proof.
  rewrite (simple_not_found Simple.init (mkReq "GET" "/execute") 0%N Simple.noon);
    try done.
  eexists. by split_and!.
Defined.

(** X4.  [/mcp-simple] answers once, with the catalog [/tools] lists, and leaves
    no stream and no timer behind; [/info] reports the number of tools of that
    catalog. *)
Theorem simple_mcp_simple_answer evs req now iso :
  method req <> "OPTIONS" ->
  (url req = "/mcp-simple" ->
   Simple.answer (Simple.exec Simple.init evs) req now iso
   = Some (Simple.mkConn
             (mkRes true (Some 200) (with_headers json_headers (headers (cors fresh_res)))
                [shown (JSON_stringify
                          (VObj [("status", VStr "connected");
                                 ("protocol", VStr "mcp-simple");
                                 ("tools", VArr Simple.PLAYWRIGHT_TOOLS);
                                 ("capabilities", VArr [VStr "tools"]);
                                 ("server",
                                  VObj [("name", VStr "simple-playwright-mcp");
                                        ("version", VStr "1.0.0")])]))]
                true None)
             None None)) /\
  (url req = "/" \/ url req = "/info" ->
   exists cn,
     Simple.answer (Simple.exec Simple.init evs) req now iso = Some cn /\
     statusCode (Simple.res cn) = Some 200 /\ ended (Simple.res cn) = true /\
     chunks (Simple.res cn)
     = [shown (JSON_stringify (Simple.info_body Simple.PLAYWRIGHT_TOOLS))] /\
     get "tools" (Simple.info_body Simple.PLAYWRIGHT_TOOLS)
     = VNum (pretty (List.length Simple.PLAYWRIGHT_TOOLS))).
Proof.
  intros Hm. unfold Simple.answer. simpl. rewrite lookup_insert_eq, simple_exec_tools.
  unfold Simple.on_request. destruct req as [m u]; simpl in *.
  rewrite (eqb_false_of_ne _ _ Hm). split.
  - intros ->. reflexivity.
  - intros [->| ->]; simpl.
    + destruct (String.eqb m "POST"); eexists; by split_and!.
    + destruct (String.eqb m "POST"); eexists; by split_and!.
Qed.

Lemma simple_mcp_simple_answer_witness :
  exists cn,
    Simple.answer (Simple.exec Simple.init Simple.stream_opened)
      (mkReq "GET" "/mcp-simple") 0 Simple.noon = Some cn /\
    ended (Simple.res cn) = true /\ Simple.heartbeatInterval cn = None.
Proof.
  destruct (simple_mcp_simple_answer Simple.stream_opened (mkReq "GET" "/mcp-simple")
              0%N Simple.noon) as [H _]; [done|].
  rewrite (H eq_refl). eexists. by split_and!.
Defined.

(** X5.  The response of every request carries the three CORS headers once the
    handler has run, and so does the answer of an [/execute] exchange. *)
Theorem simple_cors_everywhere st req now iso :
  (exists cn, Simple.answer st req now iso = Some cn /\ cors_ok (Simple.res cn)) /\
  (forall pieces parsed iso',
     exists cn,
       Simple.conns (Simple.exec st (Simple.execute_exchange st now iso pieces parsed iso'))
         !! Simple.next_id st = Some cn /\
       cors_ok (Simple.res cn)).
Proof.
  split.
  - unfold Simple.answer. simpl. rewrite lookup_insert_eq. eexists. split; [reflexivity|].
    unfold Simple.on_request. destruct req as [m u]; simpl.
    repeat match goal with
           | |- context [if ?b then _ else _] => destruct b
           end; by repeat split.
  - intros pieces parsed iso'. rewrite simple_execute_conn. eexists. split; [reflexivity|].
    unfold Simple.on_end, try_catch, mbind, io_bind, lift.
    destruct parsed as [request|e]; simpl; [|by repeat split].
    destruct (Simple.execution request iso'); simpl; by repeat split.
Qed.

(** *** The simple server: bodies, timers and streams *)

(** X6.  Until the body of an [/execute] request has ended nothing is sent: the
    chunks are only collected, in the order they arrive. *)
Theorem simple_execute_waits_for_end st now iso pieces :
  Simple.conns
    (Simple.exec st (Simple.Request (mkReq "POST" "/execute") now iso
                       :: List.map (Simple.Data (Simple.next_id st)) pieces))
    !! Simple.next_id st
  = Some (Simple.mkConn (cors fresh_res) (Some (foldl String.append EmptyString pieces)) None)
  /\ headersSent (cors fresh_res) = false
  /\ chunks (cors fresh_res) = []
  /\ ended (cors fresh_res) = false.
Proof.
  split; [|done]. unfold Simple.exec. cbn [foldl].
  set (st1 := Simple.step st _).
  assert (H1 : Simple.conns st1 !! Simple.next_id st
               = Some (Simple.mkConn (cors fresh_res) (Some EmptyString) None)).
  { subst st1. simpl. by rewrite lookup_insert_eq. }
  by destruct (simple_data_body (Simple.next_id st) pieces st1 _ _ _ H1) as [H2 _].
Qed.

Lemma simple_on_request_body catalog req now iso :
  method req <> "POST" \/ url req <> "/execute" ->
  Simple.body (Simple.on_request catalog req now iso Simple.new_conn).1 = None.
Proof.
  intros H. unfold Simple.on_request. destruct req as [m u]; simpl in *.
  destruct (String.eqb m "OPTIONS"); [done|].
  destruct (String.eqb u "/health"); [done|].
  destruct (String.eqb u "/tools"); [done|].
  destruct (String.eqb u "/mcp-simple"); [done|].
  destruct (String.eqb u "/mcp"); [done|].
  destruct (String.eqb m "POST" && String.eqb u "/execute") eqn:E.
  - apply andb_true_iff in E. destruct E as [E1 E2].
    apply String.eqb_eq in E1, E2. tauto.
  - by destruct (_ || _).
Qed.

(** X7.  Only a POST to [/execute] has its body read: the body chunks of any
    other request, and the end of its body, change nothing; nothing is sent in
    answer to them. *)
Theorem simple_body_read_only_by_execute st req now iso chunk parsed iso' :
  method req <> "POST" \/ url req <> "/execute" ->
  Simple.step (Simple.step st (Simple.Request req now iso))
    (Simple.Data (Simple.next_id st) chunk)
  = Simple.step st (Simple.Request req now iso) /\
  Simple.step (Simple.step st (Simple.Request req now iso))
    (Simple.End (Simple.next_id st) parsed iso')
  = Simple.step st (Simple.Request req now iso).
Proof.
  intros H. pose proof (simple_on_request_body (Simple.tools st) req now iso H) as Hb.
  set (st1 := Simple.step st (Simple.Request req now iso)).
  assert (Hc : Simple.conns st1 !! Simple.next_id st
               = Some (Simple.on_request (Simple.tools st) req now iso Simple.new_conn).1).
  { subst st1. simpl. apply lookup_insert_eq. }
  clearbody st1. split; simpl; by rewrite Hc, Hb.
Qed.

Lemma simple_body_read_only_by_execute_witness :
  Simple.exec Simple.init
    [Simple.Request (mkReq "POST" "/mcp") 0 Simple.noon; Simple.Data 0 "{}"]
  = Simple.exec Simple.init [Simple.Request (mkReq "POST" "/mcp") 0 Simple.noon].
Proof.
  refine (proj1 (simple_body_read_only_by_execute Simple.init (mkReq "POST" "/mcp") 0%N
                   Simple.noon "{}" (Ok VNull) Simple.noon _)).
  right. simpl. discriminate.
Defined.

(** X8.  Firings in a row on a stream whose transport works write one heartbeat
    each, in order, and leave the timer due one period later each time. *)
Theorem simple_heartbeat_series isos : forall st c cn t,
  Simple.conns st !! c = Some cn ->
  Simple.heartbeatInterval cn = Some t ->
  Simple.active t = true ->
  broken (Simple.res cn) = None ->
  Simple.conns (Simple.exec st (List.map (Simple.Tick c) isos)) !! c
  = Some (Simple.mkConn
            (wrote (List.map (fun iso => sse_frame (Simple.heartbeat iso)) isos)
               (Simple.res cn))
            (Simple.body cn)
            (Some (Simple.mkTimer (Simple.period t)
                     (Simple.due t + N.of_nat (List.length isos) * Simple.period t)
                     true))).
Proof.
  unfold Simple.exec.
  induction isos as [|iso isos IH]; intros st c cn t Hc Ht Ha Hb.
  - simpl. rewrite Hc. destruct cn as [r b ti]; simpl in *. subst ti.
    destruct t as [p d a]; simpl in *. subst a. unfold wrote. rewrite app_nil_r.
    rewrite N.add_0_r. by destruct r.
  - cbn [List.map foldl].
    rewrite (simple_tick st c cn t iso Hc Ht Ha), Hb.
    set (cn1 := Simple.mkConn _ _ _).
    rewrite (IH (Simple.put c cn1 st) c cn1
               (Simple.mkTimer (Simple.period t) (Simple.due t + Simple.period t) true));
      try done.
    + subst cn1. unfold wrote. cbn [Simple.res Simple.body headersSent statusCode headers
        chunks ended broken Simple.period Simple.due List.map List.length].
      rewrite <- app_assoc, Hb. cbn [app].
      do 4 f_equal. lia.
    + simpl. apply lookup_insert_eq.
Qed.

Lemma simple_heartbeat_series_witness :
  exists cn cn',
    Simple.conns (Simple.exec Simple.init Simple.stream_opened) !! 0 = Some cn /\
    Simple.conns (Simple.exec (Simple.exec Simple.init Simple.stream_opened)
                    (List.map (Simple.Tick 0) ["t1"; "t2"; "t3"])) !! 0 = Some cn' /\
    Simple.heartbeatInterval cn' = Some (Simple.mkTimer 30000 120000 true) /\
    List.length (chunks (Simple.res cn')) = 6.
Proof.
  destruct (Simple.conns (Simple.exec Simple.init Simple.stream_opened) !! 0)
    as [cn|] eqn:E; [|vm_compute in E; discriminate].
  assert (Hfacts : Simple.heartbeatInterval cn = Some (Simple.mkTimer 30000 30000 true) /\
                   broken (Simple.res cn) = None /\
                   List.length (chunks (Simple.res cn)) = 3).
  { vm_compute in E. by injection E as <-. }
  destruct Hfacts as (Ht & Hb & Hl).
  exists cn. eexists. split; [reflexivity|].
  split; [exact (simple_heartbeat_series ["t1"; "t2"; "t3"] _ 0 cn _ E Ht eq_refl Hb)|].
  split; [reflexivity|]. simpl. rewrite length_app, Hl. reflexivity.
Defined.

Lemma simple_put_invariant st c cn :
  Simple.invariant st -> Simple.conn_ok (Simple.tools st) cn ->
  Simple.invariant (Simple.put c cn st).
Proof.
  intros Hinv Hok c' cn'. simpl. rewrite lookup_insert.
  case_decide; [by intros [= <-]|apply Hinv].
Qed.

Lemma simple_on_request_ok catalog req now iso :
  Simple.conn_ok catalog (Simple.on_request catalog req now iso Simple.new_conn).1.
Proof.
  unfold Simple.on_request. destruct req as [m u]; simpl.
  repeat match goal with
         | |- context [if ?b then _ else _] => destruct b
         end; try exact I.
  all: split_and!; try done; by exists [].
Qed.

Lemma simple_on_end_ok catalog parsed iso r b :
  Simple.conn_ok catalog (Simple.on_end parsed iso (Simple.mkConn r b None)).1.
Proof.
  destruct r as [sent status hs written fin br].
  destruct parsed as [request|e]; [destruct (Simple.execution request iso) eqn:E|];
    destruct sent; unfold Simple.on_end, try_catch, mbind, io_bind, lift;
    cbn beta iota; rewrite ?E; lazy; exact I.
Qed.

Lemma simple_step_invariant st ev : Simple.invariant st -> Simple.invariant (Simple.step st ev).
Proof.
  intros Hinv.
  destruct ev as [req now iso|c chunk|c parsed iso|c iso|c|c e|c e];
    [simpl|simpl|simpl| |simpl|simpl|simpl].
  - intros c cn. simpl. rewrite lookup_insert.
    case_decide; [intros [= <-]; apply simple_on_request_ok|apply Hinv].
  - destruct (Simple.conns st !! c) as [cn|] eqn:E; [|exact Hinv].
    destruct (Simple.body cn) eqn:Eb; [|exact Hinv].
    apply simple_put_invariant; [exact Hinv|].
    pose proof (Hinv c cn E) as Hok. unfold Simple.conn_ok in *. simpl.
    destruct (Simple.heartbeatInterval cn); [|exact I].
    destruct Hok as [Hok _]. congruence.
  - destruct (Simple.conns st !! c) as [cn|] eqn:E; [|exact Hinv].
    destruct (Simple.body cn) eqn:Eb; [|exact Hinv].
    apply simple_put_invariant; [exact Hinv|].
    pose proof (Hinv c cn E) as Hok. unfold Simple.conn_ok in Hok.
    destruct cn as [r b [t|]]; simpl in *.
    + destruct Hok as [Hok _]. congruence.
    + apply simple_on_end_ok.
  - destruct (Simple.conns st !! c) as [cn|] eqn:E; [|by simpl; rewrite E].
    destruct (Simple.heartbeatInterval cn) as [t|] eqn:Et; [|by simpl; rewrite E, Et].
    destruct (Simple.active t) eqn:Ea; [|by simpl; rewrite E, Et, Ea].
    rewrite (simple_tick st c cn t iso E Et Ea).
    apply simple_put_invariant; [exact Hinv|].
    pose proof (Hinv c cn E) as Hok. unfold Simple.conn_ok in *. rewrite Et in Hok.
    destruct Hok as (H1 & H2 & H3 & H4 & H5 & isos & H6).
    destruct (broken (Simple.res cn)); simpl; split_and!; try done; [by exists isos|].
    exists (isos ++ [iso])%list. rewrite H6, List.map_app, <- app_assoc. reflexivity.
  - destruct (Simple.conns st !! c) as [cn|] eqn:E; [|exact Hinv].
    destruct (Simple.heartbeatInterval cn) as [t|] eqn:Et; [|exact Hinv].
    apply simple_put_invariant; [exact Hinv|].
    pose proof (Hinv c cn E) as Hok. unfold Simple.conn_ok in *. simpl.
    rewrite Et in *. exact Hok.
  - destruct (Simple.conns st !! c) as [cn|] eqn:E; [|exact Hinv].
    destruct (Simple.heartbeatInterval cn) as [t|] eqn:Et; [|exact Hinv].
    apply simple_put_invariant; [exact Hinv|].
    pose proof (Hinv c cn E) as Hok. unfold Simple.conn_ok in *. simpl.
    rewrite Et in *. exact Hok.
  - destruct (Simple.conns st !! c) as [cn|] eqn:E; [|exact Hinv].
    apply simple_put_invariant; [exact Hinv|].
    pose proof (Hinv c cn E) as Hok. unfold Simple.conn_ok in *. simpl.
    destruct (Simple.heartbeatInterval cn); exact Hok.
Qed.

Lemma simple_reach_invariant evs : Simple.invariant (Simple.exec Simple.init evs).
Proof.
  assert (H : forall st, Simple.invariant st -> Simple.invariant (Simple.exec st evs)).
  { induction evs as [|ev evs IH]; intros st Hst; [exact Hst|].
    apply (IH (Simple.step st ev)), simple_step_invariant, Hst. }
  apply H. intros c cn Hc. simpl in Hc. by rewrite lookup_empty in Hc.
Qed.

(** X9.  In every state the simple server can reach, a request that was accepted
    as a stream (it has a timer) was answered 200, has no body listener, and its
    response has not been ended: the server never closes a stream itself. The
    stream holds the three opening frames followed by heartbeats and nothing
    else, and the timer's period is the one [setInterval] was given. *)
Theorem simple_stream_stays_open evs c cn t :
  Simple.conns (Simple.exec Simple.init evs) !! c = Some cn ->
  Simple.heartbeatInterval cn = Some t ->
  headersSent (Simple.res cn) = true /\
  statusCode (Simple.res cn) = Some 200 /\
  ended (Simple.res cn) = false /\
  Simple.body cn = None /\
  Simple.period t = 30000%N /\
  exists isos,
    chunks (Simple.res cn)
    = ([sse_frame Simple.initMessage;
        sse_frame (Simple.serverInfo Simple.PLAYWRIGHT_TOOLS);
        sse_frame (Simple.toolsList Simple.PLAYWRIGHT_TOOLS)]
         ++ List.map (fun iso => sse_frame (Simple.heartbeat iso)) isos)%list.
Proof.
  intros Hc Ht. pose proof (simple_reach_invariant evs c cn Hc) as Hok.
  unfold Simple.conn_ok in Hok. rewrite Ht, simple_exec_tools in Hok.
  destruct Hok as (H1 & H2 & H3 & H4 & H5 & H6). by split_and!.
Qed.

Lemma simple_stream_stays_open_witness :
  exists cn t,
    Simple.conns (Simple.exec Simple.init
                    (Simple.stream_opened ++ [Simple.Tick 0 "t1"; Simple.Close 0])) !! 0
    = Some cn /\
    Simple.heartbeatInterval cn = Some t /\
    ended (Simple.res cn) = false /\ Simple.period t = 30000%N.
Proof.
  destruct (Simple.conns (Simple.exec Simple.init
              (Simple.stream_opened ++ [Simple.Tick 0 "t1"; Simple.Close 0])) !! 0)
    as [cn|] eqn:E; [|vm_compute in E; discriminate].
  destruct (Simple.heartbeatInterval cn) as [t|] eqn:Et;
    [|vm_compute in E; injection E as <-; discriminate].
  exists cn, t. split; [reflexivity|]. split; [exact Et|].
  pose proof (simple_stream_stays_open _ 0 cn t E Et) as H. tauto.
Defined.

Lemma simple_stopped_step st ev c cn t :
  Simple.fresh st ->
  Simple.conns st !! c = Some cn ->
  Simple.heartbeatInterval cn = Some t -> Simple.active t = false ->
  Simple.body cn = None ->
  exists cn',
    Simple.conns (Simple.step st ev) !! c = Some cn' /\
    Simple.heartbeatInterval cn' = Some t /\
    Simple.body cn' = None /\
    chunks (Simple.res cn') = chunks (Simple.res cn) /\
    ended (Simple.res cn') = ended (Simple.res cn).
Proof.
  intros Hf Hc Ht Ha Hb.
  assert (Hsame : exists cn',
             Simple.conns st !! c = Some cn' /\
             Simple.heartbeatInterval cn' = Some t /\
             Simple.body cn' = None /\
             chunks (Simple.res cn') = chunks (Simple.res cn) /\
             ended (Simple.res cn') = ended (Simple.res cn)) by (by exists cn).
  assert (Hother : forall c0 (x : Simple.Conn), c0 <> c ->
             exists cn',
               Simple.conns (Simple.put c0 x st) !! c = Some cn' /\
               Simple.heartbeatInterval cn' = Some t /\
               Simple.body cn' = None /\
               chunks (Simple.res cn') = chunks (Simple.res cn) /\
               ended (Simple.res cn') = ended (Simple.res cn)).
  { intros c0 x Hne. exists cn. simpl. by rewrite lookup_insert_ne. }
  destruct ev as [req now iso|c0 chunk|c0 parsed iso|c0 iso|c0|c0 e|c0 e]; simpl.
  - exists cn. split; [|done]. rewrite lookup_insert_ne; [done|].
    pose proof (Hf c cn Hc). lia.
  - destruct (decide (c0 = c)) as [->|Hne]; [by rewrite Hc, Hb|].
    destruct (Simple.conns st !! c0) as [cn0|]; [|done].
    destruct (Simple.body cn0); [|done]. by apply (Hother c0).
  - destruct (decide (c0 = c)) as [->|Hne]; [by rewrite Hc, Hb|].
    destruct (Simple.conns st !! c0) as [cn0|]; [|done].
    destruct (Simple.body cn0); [|done]. by apply (Hother c0).
  - destruct (decide (c0 = c)) as [->|Hne]; [by rewrite Hc, Ht, Ha|].
    destruct (Simple.conns st !! c0) as [cn0|]; [|done].
    destruct (Simple.heartbeatInterval cn0) as [t0|]; [|done].
    destruct (Simple.active t0); [|done]. by apply (Hother c0).
  - destruct (decide (c0 = c)) as [->|Hne].
    + rewrite Hc, Ht. eexists. split; [simpl; apply lookup_insert_eq|].
      simpl. rewrite Ht. destruct t as [p d a]; simpl in *. by subst a.
    + destruct (Simple.conns st !! c0) as [cn0|]; [|done].
      destruct (Simple.heartbeatInterval cn0); [|done]. by apply (Hother c0).
  - destruct (decide (c0 = c)) as [->|Hne].
    + rewrite Hc, Ht. eexists. split; [simpl; apply lookup_insert_eq|].
      simpl. rewrite Ht. destruct t as [p d a]; simpl in *. by subst a.
    + destruct (Simple.conns st !! c0) as [cn0|]; [|done].
      destruct (Simple.heartbeatInterval cn0); [|done]. by apply (Hother c0).
  - destruct (decide (c0 = c)) as [->|Hne].
    + rewrite Hc. eexists. split; [simpl; apply lookup_insert_eq|]. done.
    + destruct (Simple.conns st !! c0) as [cn0|]; [|done]. by apply (Hother c0).
Qed.

Lemma simple_stopped_exec evs : forall st c cn t,
  Simple.fresh st ->
  Simple.conns st !! c = Some cn ->
  Simple.heartbeatInterval cn = Some t -> Simple.active t = false ->
  Simple.body cn = None ->
  exists cn',
    Simple.conns (Simple.exec st evs) !! c = Some cn' /\
    Simple.heartbeatInterval cn' = Some t /\
    chunks (Simple.res cn') = chunks (Simple.res cn) /\
    ended (Simple.res cn') = ended (Simple.res cn).
Proof.
  induction evs as [|ev evs IH]; intros st c cn t Hf Hc Ht Ha Hb.
  - by exists cn.
  - destruct (simple_stopped_step st ev c cn t Hf Hc Ht Ha Hb)
      as (cn1 & Hc1 & Ht1 & Hb1 & Hch & Hen).
    destruct (IH (Simple.step st ev) c cn1 t (simple_step_fresh _ _ Hf) Hc1 Ht1 Ha Hb1)
      as (cn2 & Hc2 & Ht2 & Hch2 & Hen2).
    exists cn2. split; [exact Hc2|]. split; [exact Ht2|]. split; congruence.
Qed.

(** X10.  Once the [close] or [error] event of a stream's request was delivered,
    nothing is ever written to that stream again, whatever happens later: its
    timer is cleared for good, and the response is still not ended. *)
Theorem simple_close_silences_stream evs c cn stop later :
  Simple.conns (Simple.exec Simple.init evs) !! c = Some cn ->
  is_Some (Simple.heartbeatInterval cn) ->
  stop = Simple.Close c \/ (exists e, stop = Simple.Error c e) ->
  exists cn' t,
    Simple.conns (Simple.exec Simple.init (evs ++ stop :: later)) !! c = Some cn' /\
    chunks (Simple.res cn') = chunks (Simple.res cn) /\
    ended (Simple.res cn') = false /\
    Simple.heartbeatInterval cn' = Some t /\ Simple.active t = false.
Proof.
  intros Hc [t Ht] Hstop.
  pose proof (simple_reach_invariant evs c cn Hc) as Hok.
  unfold Simple.conn_ok in Hok. rewrite Ht in Hok.
  destruct Hok as (Hb & _ & _ & Hen & _).
  unfold Simple.exec. rewrite foldl_app. cbn [foldl].
  fold (Simple.exec Simple.init evs). set (st := Simple.exec Simple.init evs) in *.
  set (t' := Simple.mkTimer (Simple.period t) (Simple.due t) false).
  set (cn1 := Simple.mkConn (Simple.res cn) (Simple.body cn) (Some t')).
  assert (Hstep : Simple.step st stop = Simple.put c cn1 st).
  { destruct Hstop as [->|[e ->]]; simpl; rewrite Hc, Ht; unfold Simple.run; simpl;
      by rewrite Ht. }
  rewrite Hstep.
  destruct (simple_stopped_exec later (Simple.put c cn1 st) c cn1 t') as (cn2 & H1 & H2 & H3 & H4).
  - rewrite <- Hstep. apply simple_step_fresh, simple_reach_fresh.
  - simpl. apply lookup_insert_eq.
  - reflexivity.
  - reflexivity.
  - exact Hb.
  - exists cn2, t'. unfold Simple.exec in H1. split; [exact H1|].
    split; [exact H3|]. split; [by rewrite H4|]. split; [exact H2|reflexivity].
Qed.

Lemma simple_close_silences_stream_witness :
  exists cn cn' t,
    Simple.conns (Simple.exec Simple.init Simple.stream_opened) !! 0 = Some cn /\
    Simple.conns (Simple.exec Simple.init
                    (Simple.stream_opened
                       ++ Simple.Close 0 :: [Simple.Tick 0 "t1"; Simple.Tick 0 "t2"])) !! 0
    = Some cn' /\
    chunks (Simple.res cn') = chunks (Simple.res cn) /\
    ended (Simple.res cn') = false /\
    Simple.heartbeatInterval cn' = Some t /\ Simple.active t = false.
Proof.
  destruct (Simple.conns (Simple.exec Simple.init Simple.stream_opened) !! 0)
    as [cn|] eqn:E; [|vm_compute in E; discriminate].
  assert (Ht : is_Some (Simple.heartbeatInterval cn)).
  { vm_compute in E. injection E as <-. by eexists. }
  destruct (simple_close_silences_stream Simple.stream_opened 0 cn (Simple.Close 0)
              [Simple.Tick 0 "t1"; Simple.Tick 0 "t2"] E Ht (or_introl eq_refl))
    as (cn' & t & H).
  exists cn, cn', t. split; [reflexivity|]. exact H.
Defined.

(** *** The full server: routes *)

(** X11.  A preflight request is answered 200 with no body and ended, whatever
    its URL: sent to [/mcp] it opens no stream, takes no client identifier and
    leaves the registry alone. *)
Theorem full_options_preflight st req a :
  method req = "OPTIONS" ->
  answer st req a
  = Some (mkConn (mkRes true (Some 200) (headers (cors fresh_res)) [] true None)
            None None Done false) /\
  clients (step st (Request req a)) = clients st.
Proof.
  intros Hm. unfold answer. simpl. rewrite lookup_insert_eq.
  unfold on_request. destruct req as [m u]; simpl in *. subst m. done.
Qed.

Lemma full_options_preflight_witness :
  exists cn,
    answer (exec (init loaded defaults) session_open) (mkReq "OPTIONS" "/mcp")
      (ambient "client-2") = Some cn /\
    ended (res cn) = true /\ chunks (res cn) = [] /\ clientId cn = None.
Proof.
  destruct (full_options_preflight (exec (init loaded defaults) session_open)
              (mkReq "OPTIONS" "/mcp") (ambient "client-2") eq_refl) as [H _].
  rewrite H. eexists. by split_and!.
Defined.

(** X12.  Every URL other than [/health], [/mcp], [/] and [/info] is answered
    404 with the body [{error: 'Not found'}], for every method but OPTIONS, and
    the registry is left alone; [/tools] and [/execute], which the simple server
    serves, are such URLs here. *)
Theorem full_not_found st req a :
  method req <> "OPTIONS" ->
  url req <> "/health" -> url req <> "/mcp" -> url req <> "/" -> url req <> "/info" ->
  answer st req a
  = Some (mkConn
            (mkRes true (Some 404) (with_headers json_headers (headers (cors fresh_res)))
               [shown (JSON_stringify (VObj [("error", VStr "Not found")]))] true None)
            None None Done false) /\
  clients (step st (Request req a)) = clients st.
Proof.
  intros Hm H1 H2 H3 H4. unfold answer. simpl. rewrite lookup_insert_eq.
  unfold on_request. destruct req as [m u]; simpl in *.
  rewrite (eqb_false_of_ne _ _ Hm), (eqb_false_of_ne _ _ H1), (eqb_false_of_ne _ _ H2),
    (eqb_false_of_ne _ _ H3), (eqb_false_of_ne _ _ H4). done.
Qed.

Lemma full_not_found_witness :
  exists tools execute,
    answer (init loaded defaults) (mkReq "GET" "/tools") (ambient "client-1") = Some tools /\
    statusCode (res tools) = Some 404 /\
    answer (init loaded defaults) (mkReq "POST" "/execute") (ambient "client-1")
    = Some execute /\
    statusCode (res execute) = Some 404.
Proof.
  destruct (full_not_found (init loaded defaults) (mkReq "GET" "/tools") (ambient "client-1"))
    as [H1 _]; try done.
  destruct (full_not_found (init loaded defaults) (mkReq "POST" "/execute")
              (ambient "client-1")) as [H2 _]; try done.
  rewrite H1, H2. eexists _, _. by split_and!.
Defined.

Lemma full_step_environment st ev : environment (step st ev) = environment st.
Proof.
  destruct ev; simpl; try reflexivity; unfold run; break_match; reflexivity.
Qed.

Lemma full_exec_environment evs : forall st, environment (exec st evs) = environment st.
Proof.
  induction evs as [|ev evs IH]; intros st; [reflexivity|].
  simpl. unfold exec in IH. rewrite IH. apply full_step_environment.
Qed.

(** X13.  [/] and [/info] give the same answer at any time: the configuration
    computed at start-up from the environment, and the number of clients
    registered at the moment, in a complete response. *)
Theorem full_info_answer mods env evs req a :
  method req <> "OPTIONS" -> url req = "/" \/ url req = "/info" ->
  answer (exec (init mods env) evs) req a
  = Some (mkConn
            (mkRes true (Some 200) (with_headers json_headers (headers (cors fresh_res)))
               [shown (JSON_stringify
                         (VObj [("name", VStr "Enhanced Playwright MCP HTTP Server");
                                ("version", VStr "2.0.0");
                                ("endpoints",
                                 VObj [("health", VStr "/health"); ("mcp", VStr "/mcp");
                                       ("info", VStr "/info")]);
                                ("config", playwrightConfig env);
                                ("stats",
                                 VObj [("connectedClients",
                                        VNum (pretty (size (clients
                                                              (exec (init mods env) evs)))));
                                       ("uptime", VNum (uptime a))])]))]
               true None)
            None None Done false).
Proof.
  intros Hm Hu. unfold answer. simpl. rewrite lookup_insert_eq.
  rewrite (full_exec_environment evs (init mods env)).
  unfold on_request. destruct req as [m u]; simpl in *.
  rewrite (eqb_false_of_ne _ _ Hm). by destruct Hu as [-> | ->].
Qed.

Lemma full_info_answer_witness :
  answer (exec (init loaded defaults) session_open) (mkReq "GET" "/") (ambient "probe")
  = answer (exec (init loaded defaults) session_open) (mkReq "GET" "/info") (ambient "probe").
Proof.
  rewrite (full_info_answer loaded defaults session_open (mkReq "GET" "/") (ambient "probe"));
    [|done|by left].
  rewrite (full_info_answer loaded defaults session_open (mkReq "GET" "/info")
             (ambient "probe")); [|done|by right].
  reflexivity.
Defined.

(** X14.  The response of every request carries the three CORS headers once the
    handler has reached its first suspension; the headers of a stream do not
    override them. *)
Theorem full_cors_everywhere st req a :
  exists cn, answer st req a = Some cn /\ cors_ok (res cn).
Proof.
  unfold answer. simpl. rewrite lookup_insert_eq. eexists. split; [reflexivity|].
  unfold on_request. destruct req as [m u]; simpl.
  destruct (String.eqb m "OPTIONS"); [by repeat split|].
  destruct (String.eqb u "/health"); [by repeat split|].
  destruct (String.eqb u "/mcp").
  - change ((res_cors ≫= λ _ : (), mcp_begin (modules st) (uuid a) (trace a))
              {| conn := new_conn; connectedClients := clients st |}).1
      with (mcp_begin (modules st) (uuid a) (trace a)
              (mkCtx (mkConn (cors fresh_res) None None Done false) (clients st))).1.
    pose proof (mcp_begin_eval (modules st) (uuid a) (trace a) (clients st)) as H.
    cbv zeta in H. destruct (createConnection (modules st)); destruct H as [-> _];
      by repeat split.
  - destruct (String.eqb u "/" || String.eqb u "/info"); by repeat split.
Qed.

(** *** The full server: the registry *)

Lemma on_failure_registry id error x :
  connectedClients (on_failure id error x).1 = connectedClients x \/
  connectedClients (on_failure id error x).1 = delete id (connectedClients x).
Proof.
  destruct x as [[[hs sc hd ch en br] cid ms ph cl] old].
  destruct hs, br as [e'|]; io_unfold; try (by left);
    destruct (bool_decide _); simpl; auto.
Qed.

Lemma mcp_created_thrown mods c id e now x :
  mcp_created mods c id (Throw e) now x = on_failure id e x.
Proof. reflexivity. Qed.

Lemma on_request_registry mods env req a old :
  let x := (on_request mods env req a (mkCtx new_conn old)).1 in
  connectedClients x = old \/ connectedClients x = delete (uuid a) old.
Proof.
  unfold on_request. simpl.
  change (mbind ?f res_cors ?s) with (f tt (mkCtx (mkConn (cors fresh_res) None None Done false) old)).
  cbv beta.
  destruct (String.eqb (method req) "OPTIONS"); [by left|].
  destruct (String.eqb (url req) "/health"); [by left|].
  destruct (String.eqb (url req) "/mcp").
  { destruct (createConnection mods) eqn:E; io_unfold; rewrite E; simpl; [by left|].
    destruct (bool_decide _); simpl; auto. }
  destruct (_ || _); by left.
Qed.

Lemma full_connected_registry st c outcome :
  invariant st -> clients (step st (Connected c outcome)) = clients st.
Proof.
  intros Hinv. simpl.
  destruct (conns st !! c) as [cn|] eqn:Hc; [|done].
  destruct (pending cn) eqn:Hp; try done.
  destruct (clientId cn) as [id|] eqn:Hid; [|done].
  destruct (mcpServer cn) as [m|] eqn:Hms; [|done].
  pose proof (inv_conns st Hinv c cn Hc) as Hok. unfold conn_ok in Hok.
  rewrite Hid, Hp in Hok. destruct Hok as (Hs & _ & _ & _ & Hcl).
  assert (Hres : resume cn = mkConn (res cn) (Some id) (Some m) Done false).
  { unfold resume. by rewrite Hid, Hms, Hcl. }
  unfold run. rewrite Hres. cbn [clients].
  by destruct (mcp_connected_eval id m outcome (res cn) (Some m) (clients st) Hs) as [H _].
Qed.

(** What one event can do to the registry: nothing, remove the entry of the
    client it is about, or, when it settles a session, register that
    client. *)
Lemma full_step_registry st ev :
  invariant st ->
  clients (step st ev) = clients st \/
  (exists id, subject st ev = Some id /\ clients (step st ev) = delete id (clients st)) \/
  (exists c id m now,
      ev = Created c (Ok m) now /\ subject st ev = Some id /\
      clients (step st ev) = <[id := mkClientEntry c m true now]> (clients st)).
Proof.
  intros Hinv.
  destruct ev as [req a|c chunk|c|c outcome now|c outcome|c|c e]; simpl.
  - destruct (on_request_registry (modules st) (environment st) req a (clients st))
      as [H|H]; [by left|right; left]. by exists (uuid a).
  - by left.
  - by left.
  - destruct (conns st !! c) as [cn|] eqn:Hc; [|by left].
    destruct (pending cn) eqn:Hp; try by left.
    destruct (clientId cn) as [id|] eqn:Hid; [|by left].
    pose proof (inv_conns st Hinv c cn Hc) as Hok. unfold conn_ok in Hok.
    rewrite Hid, Hp in Hok. destruct Hok as (Hs & _ & _ & Hms & Hcl).
    assert (Hres : resume cn = mkConn (res cn) (Some id) None Done false).
    { unfold resume. by rewrite Hid, Hms, Hcl. }
    unfold run. rewrite Hres. cbn [clients].
    destruct outcome as [m|e].
    + right; right. exists c, id, m, now. split; [done|]. split; [done|].
      pose proof (mcp_created_eval (modules st) c id (Ok m) now (res cn) (clients st) Hs) as H.
      cbv zeta in H. destruct (broken (res cn)); tauto.
    + rewrite mcp_created_thrown.
      destruct (on_failure_registry id e
                  (mkCtx (mkConn (res cn) (Some id) None Done false) (clients st)))
        as [H|H]; [by left|right; left]. by exists id.
  - left. exact (full_connected_registry st c outcome Hinv).
  - destruct (conns st !! c) as [cn|] eqn:Hc; [|by left].
    destruct (closeListener cn); [|by left].
    destruct (clientId cn) as [id|] eqn:Hid; [|by left].
    right; left. by exists id.
  - destruct (conns st !! c) as [cn|] eqn:Hc; by left.
Qed.

Lemma below_delete (m : gmap string ClientEntry) id : below (delete id m) m.
Proof. intros k e H. apply lookup_delete_Some in H. tauto. Qed.

(** X15.  Only the settlement of a created session adds to the registry: after
    any other event the registry holds no entry it did not hold before. *)
Theorem full_registry_grows_only_on_created mods env evs ev :
  sessions_created [ev] = 0 ->
  below (clients (step (exec (init mods env) evs) ev)) (clients (exec (init mods env) evs)).
Proof.
  intros Hev.
  destruct (full_step_registry (exec (init mods env) evs) ev (full_reach_invariant mods env evs))
    as [H|[(id & _ & H)|(c & id & m & now & -> & _)]].
  - rewrite H. by intros ??.
  - rewrite H. apply below_delete.
  - discriminate.
Qed.

Lemma full_registry_grows_only_on_created_witness :
  below
    (clients (step (exec (init loaded defaults) session_open)
                (Created 0 (Throw no_browser) "2025-01-01T12:00:02.000Z")))
    (clients (exec (init loaded defaults) session_open)).
Proof.
  apply (full_registry_grows_only_on_created loaded defaults session_open
           (Created 0 (Throw no_browser) "2025-01-01T12:00:02.000Z")).
  reflexivity.
Defined.

Lemma full_step_registry_size st ev :
  invariant st -> size (clients (step st ev)) <= size (clients st) + sessions_created [ev].
Proof.
  intros Hinv.
  destruct (full_step_registry st ev Hinv) as [H|[(id & _ & H)|(c & id & m & now & -> & _ & H)]].
  - rewrite H. lia.
  - rewrite H. pose proof (map_subseteq_size (delete id (clients st)) (clients st)) as Hle.
    specialize (Hle (delete_subseteq _ _)). lia.
  - rewrite H. rewrite map_size_insert. simpl. destruct (clients st !! id); simpl; lia.
Qed.

Lemma sessions_created_cons ev evs :
  sessions_created (ev :: evs) = sessions_created [ev] + sessions_created evs.
Proof. destruct ev as [| | |c [m|e] now| | |]; reflexivity. Qed.

(** X16.  The registry never holds more clients than sessions were created. *)
Theorem full_registry_bounded mods env evs :
  size (clients (exec (init mods env) evs)) <= sessions_created evs.
Proof.
  assert (H : forall st, invariant st ->
            size (clients (exec st evs)) <= size (clients st) + sessions_created evs).
  { induction evs as [|ev evs IH]; intros st Hinv; [simpl; lia|].
    rewrite sessions_created_cons. unfold exec. cbn [foldl].
    pose proof (IH (step st ev) (full_step_invariant st ev Hinv)) as H1.
    pose proof (full_step_registry_size st ev Hinv) as H2.
    unfold exec in H1. lia. }
  specialize (H (init mods env) (full_init_invariant mods env)).
  simpl in H. rewrite map_size_empty in H. lia.
Qed.

(** X17.  An event about one client leaves the registry entry of every other
    client as it was. *)
Theorem full_registry_isolation mods env evs ev id :
  subject (exec (init mods env) evs) ev <> Some id ->
  clients (step (exec (init mods env) evs) ev) !! id
  = clients (exec (init mods env) evs) !! id.
Proof.
  intros Hne.
  destruct (full_step_registry (exec (init mods env) evs) ev (full_reach_invariant mods env evs))
    as [H|[(k & Hk & H)|(c & k & m & now & _ & Hk & H)]]; rewrite H; [done| |].
  - apply lookup_delete_ne. congruence.
  - apply lookup_insert_ne. congruence.
Qed.

Lemma full_registry_isolation_witness :
  clients (step (exec (init loaded defaults) session_open)
             (Request (mkReq "GET" "/mcp") (ambient "client-2"))) !! "client-1"
  = clients (exec (init loaded defaults) session_open) !! "client-1".
Proof.
  apply (full_registry_isolation loaded defaults session_open
           (Request (mkReq "GET" "/mcp") (ambient "client-2")) "client-1").
  simpl. discriminate.
Defined.

(** X18.  The outcome of the standard connection never changes the registry: a
    client whose connection attempt fails stays registered. *)
Theorem full_connected_keeps_registry mods env evs c outcome :
  clients (step (exec (init mods env) evs) (Connected c outcome))
  = clients (exec (init mods env) evs).
Proof. apply full_connected_registry, full_reach_invariant. Qed.

Lemma full_created_step st c cn id m now :
  invariant st -> conns st !! c = Some cn ->
  pending cn = AwaitCreate -> clientId cn = Some id -> broken (res cn) = None ->
  step st (Created c (Ok m) now)
  = mkState (modules st) (environment st)
      (<[id := mkClientEntry c m true now]> (clients st))
      (<[c := if SSEServerTransport (modules st) && bool_decide (is_Some (server m))
              then mkConn (wrote [sse_frame initialized] (res cn))
                     (Some id) (Some m) AwaitConnect false
              else mkConn (wrote [sse_frame initialized; sse_frame (tools_list [])] (res cn))
                     (Some id) (Some m) Done true]> (conns st))
      (next_id st).
Proof.
  intros Hinv Hc Hp Hid Hb. simpl. rewrite Hc, Hp, Hid.
  pose proof (inv_conns st Hinv c cn Hc) as Hok. unfold conn_ok in Hok.
  rewrite Hid, Hp in Hok. destruct Hok as (Hs & _ & _ & Hms & Hcl).
  assert (Hres : resume cn = mkConn (res cn) (Some id) None Done false).
  { unfold resume. by rewrite Hid, Hms, Hcl. }
  unfold run. rewrite Hres.
  pose proof (mcp_created_eval (modules st) c id (Ok m) now (res cn) (clients st) Hs) as H.
  cbv zeta in H. rewrite Hb in H. destruct H as [-> ->]. reflexivity.
Qed.

Lemma full_connected_step st c cn id m outcome :
  conns st !! c = Some cn ->
  pending cn = AwaitConnect -> clientId cn = Some id -> mcpServer cn = Some m ->
  closeListener cn = false -> headersSent (res cn) = true -> broken (res cn) = None ->
  step st (Connected c outcome)
  = mkState (modules st) (environment st) (clients st)
      (<[c := mkConn
                (match outcome with
                 | Ok _ => res cn
                 | Throw _ =>
                     wrote [sse_frame (tools_list (match handler_keys m with
                                                   | Ok names => names
                                                   | Throw _ => []
                                                   end))] (res cn)
                 end) (Some id) (Some m) Done true]> (conns st))
      (next_id st).
Proof.
  intros Hc Hp Hid Hms Hcl Hs Hb. simpl. rewrite Hc, Hp, Hid, Hms.
  assert (Hres : resume cn = mkConn (res cn) (Some id) (Some m) Done false).
  { unfold resume. by rewrite Hid, Hms, Hcl. }
  unfold run. rewrite Hres.
  destruct (mcp_connected_eval id m outcome (res cn) (Some m) (clients st) Hs) as [-> ->].
  rewrite Hb. by destruct outcome.
Qed.

Lemma full_close_step st c cn id :
  conns st !! c = Some cn -> closeListener cn = true -> clientId cn = Some id ->
  step st (Close c)
  = mkState (modules st) (environment st) (delete id (clients st))
      (<[c := cn]> (conns st)) (next_id st).
Proof. intros Hc Hl Hid. simpl. by rewrite Hc, Hl, Hid. Qed.

(** X19.  A whole visit gives the registry back as it was: a client whose
    session is created, whose standard connection is attempted (whatever comes
    of it) and who then goes away leaves no entry behind, and no other entry is
    touched. *)
Theorem full_visit_round_trip mods env evs c cn id m now outcome :
  conns (exec (init mods env) evs) !! c = Some cn ->
  pending cn = AwaitCreate -> clientId cn = Some id -> broken (res cn) = None ->
  clients (exec (init mods env) evs) !! id = None ->
  clients (exec (exec (init mods env) evs) [Created c (Ok m) now]) !! id
  = Some (mkClientEntry c m true now) /\
  clients (exec (exec (init mods env) evs) (visit mods c m now outcome))
  = clients (exec (init mods env) evs).
Proof.
  intros Hc Hp Hid Hb Hnone.
  pose proof (full_reach_invariant mods env evs) as Hinv.
  pose proof (full_exec_modules evs (init mods env)) as Hmods. simpl in Hmods.
  set (st := exec (init mods env) evs) in *.
  pose proof (inv_conns st Hinv c cn Hc) as Hok. unfold conn_ok in Hok.
  rewrite Hid, Hp in Hok. destruct Hok as (Hs & _ & _ & _ & _).
  pose proof (full_created_step st c cn id m now Hinv Hc Hp Hid Hb) as H1.
  rewrite Hmods in H1.
  split.
  { unfold exec. cbn [foldl]. rewrite H1. simpl. apply lookup_insert_eq. }
  unfold visit, exec.
  destruct (SSEServerTransport mods && bool_decide (is_Some (server m))); cbn [foldl].
  - rewrite H1.
    erewrite full_connected_step; [|simpl; apply lookup_insert_eq|done..].
    erewrite full_close_step; [|simpl; apply lookup_insert_eq|done..].
    simpl. rewrite delete_insert_eq. by apply delete_id.
  - rewrite H1.
    erewrite full_close_step; [|simpl; apply lookup_insert_eq|done..].
    simpl. rewrite delete_insert_eq. by apply delete_id.
Qed.

Lemma full_visit_round_trip_witness :
  clients (exec (exec (init loaded defaults)
                   [Request (mkReq "GET" "/mcp") (ambient "client-1")])
             (visit loaded 0 engine "2025-01-01T12:00:01.000Z" (Throw no_browser)))
  = clients (exec (init loaded defaults)
               [Request (mkReq "GET" "/mcp") (ambient "client-1")]).
Proof.
  destruct (conns (exec (init loaded defaults)
                     [Request (mkReq "GET" "/mcp") (ambient "client-1")]) !! 0)
    as [cn|] eqn:E; [|vm_compute in E; discriminate].
  assert (H : pending cn = AwaitCreate /\ clientId cn = Some "client-1" /\
              broken (res cn) = None).
  { vm_compute in E. by injection E as <-. }
  destruct H as (Hp & Hid & Hb).
  apply (full_visit_round_trip loaded defaults
           [Request (mkReq "GET" "/mcp") (ambient "client-1")] 0 cn "client-1"
           engine "2025-01-01T12:00:01.000Z" (Throw no_browser) E Hp Hid Hb).
  reflexivity.
Defined.

Lemma stream_log_length listening log : stream_log listening log -> List.length log <= 2.
Proof. intros H. destruct H; simpl; lia. Qed.

(** X20.  The server never ends a stream it opened and never answers it with a
    complete response: in every reachable state the response of a request that
    took a client identifier has its headers sent, is not ended, and holds at
    most two frames. *)
Theorem full_stream_never_ended mods env evs c cn :
  conns (exec (init mods env) evs) !! c = Some cn ->
  is_Some (clientId cn) ->
  headersSent (res cn) = true /\ ended (res cn) = false /\
  List.length (chunks (res cn)) <= 2.
Proof.
  intros Hc [id Hid].
  pose proof (inv_conns _ (full_reach_invariant mods env evs) c cn Hc) as Hok.
  unfold conn_ok in Hok. rewrite Hid in Hok. destruct Hok as (Hs & He & Hph).
  split; [exact Hs|]. split; [exact He|].
  destruct (pending cn).
  - by apply stream_log_length in Hph.
  - destruct Hph as [-> _]. simpl. lia.
  - destruct Hph as [-> _]. simpl. lia.
Qed.

Lemma full_stream_never_ended_witness :
  exists cn,
    conns (exec (init loaded defaults) (late_close ++ failed_negotiation)) !! 0 = Some cn /\
    ended (res cn) = false /\ List.length (chunks (res cn)) <= 2.
Proof.
  destruct (conns (exec (init loaded defaults) (late_close ++ failed_negotiation)) !! 0)
    as [cn|] eqn:E; [|vm_compute in E; discriminate].
  assert (Hid : is_Some (clientId cn)).
  { vm_compute in E. injection E as <-. by eexists. }
  exists cn. split; [reflexivity|].
  pose proof (full_stream_never_ended loaded defaults (late_close ++ failed_negotiation)
                0 cn E Hid) as H.
  tauto.
Defined.

(** *** The full server: error frames and configuration *)

(** X21.  An error frame always carries the code -32603, a message that is not
    empty (['Internal error'] when the error has none) and a [data] member
    ([null] when the error has none); it is written as one frame. Given an error
    that is [null] or [undefined], [sendMCPError] throws before it writes
    anything. *)
Theorem sendMCPError_frame id error x :
  (error <> VNull -> error <> VUndefined -> broken (res (conn x)) = None ->
   exists message data,
     sendMCPError id error x
     = (with_res (wrote [sse_frame
                           (VObj [("jsonrpc", VStr "2.0");
                                  ("id", id);
                                  ("error",
                                   VObj [("code", VNum "-32603");
                                         ("message", message);
                                         ("data", data)])])]) x, Ok tt) /\
     truthy message = true /\
     (truthy (get "message" error) = true -> message = get "message" error) /\
     (truthy (get "message" error) = false -> message = VStr "Internal error") /\
     data <> VUndefined /\
     (truthy (get "data" error) = true -> data = get "data" error) /\
     (truthy (get "data" error) = false -> data = VNull)) /\
  (error = VNull \/ error = VUndefined ->
   exists e, sendMCPError id error x = (x, Throw e)).
Proof.
  split.
  - intros Hn Hu Hb.
    exists (js_or (get "message" error) (VStr "Internal error")),
           (js_or (get "data" error) VNull).
    split.
    + unfold sendMCPError, mbind, io_bind, lift, res_write, on_res, write.
      assert (Hp : forall k, prop k error = Ok (get k error)) by (intros k; by destruct error).
      rewrite !Hp. destruct x as [[[hs sc hd ch en br] cid ms ph cl] old].
      simpl in Hb. subst br. reflexivity.
    + unfold js_or.
      destruct (truthy (get "message" error)) eqn:E1, (truthy (get "data" error)) eqn:E2;
        split_and!; try done; try congruence;
        intros Heq; rewrite Heq in E2; discriminate.
  - intros [-> | ->]; eexists; reflexivity.
Qed.

Lemma sendMCPError_frame_witness :
  exists frame,
    (sendMCPError (VNum "7") (VObj [("message", VNaN)])
       (mkCtx (mkConn fresh_res None None Done false) ∅)).1
    = mkCtx (mkConn (wrote [sse_frame frame] fresh_res) None None Done false) ∅ /\
    get "message" (get "error" frame) = VStr "Internal error" /\
    get "data" (get "error" frame) = VNull.
Proof.
  destruct (sendMCPError_frame (VNum "7") (VObj [("message", VNaN)])
              (mkCtx (mkConn fresh_res None None Done false) ∅))
    as [H _].
  destruct H as (message & data & Heq & _ & _ & Hm & _ & _ & Hd); try done.
  rewrite Heq, (Hm eq_refl), (Hd eq_refl). eexists. split; [reflexivity|]. by split.
Defined.

(** X22.  The launch options are read from the environment with these edges:
    headless mode is switched off by the exact text [false] and by nothing else,
    and the browser channel is never empty: an unset or empty variable gives
    [chrome]. *)
Theorem playwrightConfig_launch env :
  let options := get "launchOptions" (get "browser" (playwrightConfig env)) in
  (get "headless" options = VBool false <-> PLAYWRIGHT_HEADLESS env = Some "false") /\
  (get "headless" options = VBool true <-> PLAYWRIGHT_HEADLESS env <> Some "false") /\
  exists channel,
    get "channel" options = VStr channel /\ channel <> EmptyString /\
    (PLAYWRIGHT_BROWSER env = Some channel \/
     (channel = "chrome" /\
      (PLAYWRIGHT_BROWSER env = None \/ PLAYWRIGHT_BROWSER env = Some EmptyString))).
Proof.
  destruct env as [h b]. cbn. split_and!.
  - case_bool_decide; split; intros H'; first [done|discriminate].
  - case_bool_decide; split; intros H'; first [done|discriminate].
  - unfold js_or. destruct b as [s|]; simpl.
    + destruct (String.eqb s EmptyString) eqn:E; simpl.
      * apply String.eqb_eq in E. subst s. exists "chrome". split; [done|].
        split; [done|]. right. split; [done|]. by right.
      * apply String.eqb_neq in E. exists s. split; [done|]. split; [done|]. by left.
    + exists "chrome". split; [done|]. split; [done|]. right. split; [done|]. by left.
Qed.
